(** * Flexpress: the LDflex query-context cache of [src/LdFlexClient.js]

    A shallow embedding of the staleness tracking, the three-slot query
    context (query engine, path factory, subject path), the result
    collection of [execQuery] and the two enumerators, followed by the
    properties established about them. *)

From Stdlib Require Import List ZArith NArith Bool String Ascii.
Import ListNotations.

Set Warnings "-register-all".

(* ================================================================== *)
(** ** JavaScript strings *)
(* ================================================================== *)

(** A JavaScript string is a sequence of UTF-16 code units. *)
Module JsString.

Definition t : Type := list N.

(** String literals of the source, written as Rocq strings. *)
Definition str (s : string) : t := map N_of_ascii (list_ascii_of_string s).

Fixpoint eqb (a b : t) : bool :=
  match a, b with
  | [], [] => true
  | x :: a', y :: b' => N.eqb x y && eqb a' b'
  | _, _ => false
  end.

(** [WhiteSpace] and [LineTerminator] of ECMAScript, the code units
    that [String.prototype.trim] strips. *)
Definition isWhiteSpace (c : N) : bool :=
  (N.eqb c 9 || N.eqb c 10 || N.eqb c 11 || N.eqb c 12 || N.eqb c 13
   || N.eqb c 32 || N.eqb c 160 || N.eqb c 5760
   || (N.leb 8192 c && N.leb c 8202)
   || N.eqb c 8232 || N.eqb c 8233 || N.eqb c 8239 || N.eqb c 8287
   || N.eqb c 12288 || N.eqb c 65279)%bool%N.

Fixpoint trimStart (s : t) : t :=
  match s with
  | c :: s' => if isWhiteSpace c then trimStart s' else s
  | [] => []
  end.

Definition trimEnd (s : t) : t := rev (trimStart (rev s)).

Definition trim (s : t) : t := trimEnd (trimStart s).

(** [s.startsWith(p)] *)
Fixpoint startsWith (p s : t) : bool :=
  match p, s with
  | [], _ => true
  | x :: p', y :: s' => N.eqb x y && startsWith p' s'
  | _ :: _, [] => false
  end.

(** A string is falsy exactly when it is empty. *)
Definition truthy (s : t) : bool :=
  match s with [] => false | _ :: _ => true end.

Definition whitespaceOnly (s : t) : bool := forallb isWhiteSpace s.

End JsString.

Definition jsstring : Type := JsString.t.
Definition str : string -> jsstring := JsString.str.

(** [!x || !x.trim()] for a nullable string [x]. *)
Definition blank_opt (o : option jsstring) : bool :=
  match o with
  | None => true
  | Some s => negb (JsString.truthy s) || negb (JsString.truthy (JsString.trim s))
  end.

(* ================================================================== *)
(** ** Errors *)
(* ================================================================== *)

Record Error : Type := mkError { name : jsstring; message : jsstring }.

(** [new Error(msg)] *)
Definition new_Error (msg : jsstring) : Error :=
  {| name := str "Error"; message := msg |}.

(** [Error.prototype.toString] *)
Definition Error_toString (e : Error) : jsstring :=
  match name e, message e with
  | [], m => m
  | n, [] => n
  | n, m => n ++ str ": " ++ m
  end.

(** A value that is [undefined], [null] or a string. *)
Inductive JsValue : Type :=
| JsUndefined
| JsNull
| JsStr (s : jsstring).

(** [String(v)], as the operator [+] applies it to its operand. *)
Definition JsValue_toString (v : JsValue) : jsstring :=
  match v with
  | JsUndefined => str "undefined"
  | JsNull => str "null"
  | JsStr s => s
  end.

(** The value kept by the [status] hook, read for its truth and its
    text only: a string, or nothing to show. *)
Definition JsValue_status (v : JsValue) : option jsstring :=
  match v with
  | JsStr s => Some s
  | _ => None
  end.

(** The error raised by a property access on [null]. *)
Definition TypeError_null (prop : string) : Error :=
  {| name := str "TypeError";
     message := str "Cannot read properties of null (reading '"
                ++ str prop ++ str "')" |}.

(** The error raised by a property access on [undefined]. *)
Definition TypeError_undefined (prop : string) : Error :=
  {| name := str "TypeError";
     message := str "Cannot read properties of undefined (reading '"
                ++ str prop ++ str "')" |}.

(** What a [throw] or a rejection can carry: an [Error] object,
    [undefined], [null], or any other value. Of the latter the [catch]
    clauses of the source see two things only: what reading [message]
    gives (followed here where it is [undefined], [null] or a string)
    and the text that [toString()] gives to the concatenation it is
    called in. Either of the two may throw in turn. *)
Inductive Thrown : Type :=
| ThrownError (e : Error)
| ThrownUndefined
| ThrownNull
| ThrownOther (message_read : JsValue + Thrown)
    (toString_called : jsstring + Thrown).

Coercion ThrownError : Error >-> Thrown.

(** [ex.message]: the value read, or what the access throws. *)
Definition Thrown_message (ex : Thrown) : JsValue + Thrown :=
  match ex with
  | ThrownError e => inl (JsStr (message e))
  | ThrownUndefined => inr (ThrownError (TypeError_undefined "message"))
  | ThrownNull => inr (ThrownError (TypeError_null "message"))
  | ThrownOther message_read _ => message_read
  end.

(** [ex.toString()]: the string returned, or what the call throws. *)
Definition Thrown_toString (ex : Thrown) : jsstring + Thrown :=
  match ex with
  | ThrownError e => inl (Error_toString e)
  | ThrownUndefined => inr (ThrownError (TypeError_undefined "toString"))
  | ThrownNull => inr (ThrownError (TypeError_null "toString"))
  | ThrownOther _ toString_called => toString_called
  end.

(* ================================================================== *)
(** ** The external collaborators: URL, JSON, LDflex, Comunica *)
(* ================================================================== *)

(** The part of a parsed [URL] that the source reads. *)
Record URL : Type := mkURL { origin : jsstring }.

(** A parsed JSON document. *)
Inductive Json : Type :=
| JNull
| JBool (b : bool)
| JNumber (lexeme : jsstring)
| JString (s : jsstring)
| JArray (items : list Json)
| JObject (members : list (jsstring * Json)).

(** [new ComunicaEngine(source)] *)
Record ComunicaEngine : Type := new_ComunicaEngine { engine_source : jsstring }.

(** [new PathFactory({ context, queryEngine })]; either setting may be
    absent. *)
Record PathFactory : Type := new_PathFactory
  { pf_context : option Json; pf_queryEngine : option ComunicaEngine }.

(** [namedNode(iri)], whose argument may be [null]. *)
Record NamedNode : Type := namedNode { node_value : option jsstring }.

(** [pathFactory.create({ subject })] *)
Record Path : Type := PathFactory_create
  { path_factory : PathFactory; path_subject : NamedNode }.

(** The proxies yielded by an LDflex path are observed through
    [toString()] only. *)
Record Proxy : Type := mkProxy { toString : jsstring }.

(** What a [for await] loop sees of an async iterable: it yields a
    value and goes on, ends, or rejects with some value. *)
Inductive Producer : Type :=
| Done
| Yield (v : Proxy) (rest : Producer)
| Raise (t : Thrown).

(** The producer that yields the given values and then ends. *)
Fixpoint yields (vs : list Proxy) : Producer :=
  match vs with
  | [] => Done
  | v :: vs' => Yield v (yields vs')
  end.

(** The producer that yields the given values and then rejects. *)
Fixpoint yields_then_raise (vs : list Proxy) (t : Thrown) : Producer :=
  match vs with
  | [] => Raise t
  | v :: vs' => Yield v (yields_then_raise vs' t)
  end.

(** The behaviour of the environment: the browser's URL and JSON parsers
    and the data that LDflex paths produce. *)
Record Extern : Type := mkExtern
  { URL_parse : jsstring -> URL + Error;
    JSON_parse : jsstring -> Json + Error;
    Path_resolve : Path -> jsstring -> Producer;
    Path_subjects : Path -> Producer;
    Path_properties : Path -> Producer }.

(** The constructions of chain resources, in the order they happen. *)
Inductive Call : Type :=
| CallComunicaEngine (src : jsstring)
| CallPathFactory (ctx : option Json) (engine : option ComunicaEngine)
| CallCreate (pf : PathFactory) (subject : NamedNode).

(* ================================================================== *)
(** ** A set of strings in insertion order *)
(* ================================================================== *)

(** The JavaScript [Set] holding strings: iteration follows insertion
    order and [add] of a member does nothing. *)
Module JsSet.

Definition t : Type := list jsstring.

Definition empty : t := [].

Definition has (x : jsstring) (s : t) : bool := existsb (JsString.eqb x) s.

Definition add (x : jsstring) (s : t) : t :=
  if has x s then s else s ++ [x].

(** [[...s]] *)
Definition spread (s : t) : list jsstring := s.

End JsSet.

(* ================================================================== *)
(** ** Component state *)
(* ================================================================== *)

Definition QC_STALE_SOURCE_CHANGED : Z := 4.
Definition QC_STALE_CONTEXT_CHANGED : Z := 2.
Definition QC_STALE_SUBJECT_CHANGED : Z := 1.
Definition QC_VALID : Z := 0.

(** A number is falsy exactly when it is zero. *)
Definition truthy (z : Z) : bool := negb (Z.eqb z 0).

(** The logical [a && b] on numbers: [a] when [a] is falsy, else [b]. *)
Definition js_and (a b : Z) : Z := if truthy a then b else a.

(** The three staleness flags held in a staleness value. *)
Definition sourceChanged (st : Z) : bool := Z.testbit st 2.
Definition contextChanged (st : Z) : bool := Z.testbit st 1.
Definition subjectChanged (st : Z) : bool := Z.testbit st 0.

(** The module-level [gLdfQryCtx]. *)
Record QryCtx : Type := mkQryCtx
  { queryEngine : option ComunicaEngine;
    pathFactory : option PathFactory;
    subjectPath : option Path }.

(** The values held by the component's [useState] hooks. *)
Record Hooks : Type := mkHooks
  { ldfQryCtxStale : Z;
    source : jsstring;
    ldfSubject : option jsstring;
    ldfProperty : option jsstring;
    context : jsstring;
    ldfDataPath : jsstring;
    queryResult : option (list jsstring);
    status : option jsstring;
    responsePending : bool }.

(** Everything a handler can change: the hook values of the next
    render, the module-level variables, and the log of constructions. *)
Record World : Type := mkWorld
  { hooks : Hooks;
    gLdfQryCtx : QryCtx;
    grSubjects : list jsstring;
    grSubjectProperties : list jsstring;
    calls : list Call }.

Definition with_hooks (f : Hooks -> Hooks) (w : World) : World :=
  {| hooks := f (hooks w); gLdfQryCtx := gLdfQryCtx w;
     grSubjects := grSubjects w;
     grSubjectProperties := grSubjectProperties w; calls := calls w |}.

Definition with_gLdfQryCtx (f : QryCtx -> QryCtx) (w : World) : World :=
  {| hooks := hooks w; gLdfQryCtx := f (gLdfQryCtx w);
     grSubjects := grSubjects w;
     grSubjectProperties := grSubjectProperties w; calls := calls w |}.

Definition with_grSubjects (f : list jsstring -> list jsstring) (w : World)
  : World :=
  {| hooks := hooks w; gLdfQryCtx := gLdfQryCtx w;
     grSubjects := f (grSubjects w);
     grSubjectProperties := grSubjectProperties w; calls := calls w |}.

Definition with_grSubjectProperties (f : list jsstring -> list jsstring)
  (w : World) : World :=
  {| hooks := hooks w; gLdfQryCtx := gLdfQryCtx w;
     grSubjects := grSubjects w;
     grSubjectProperties := f (grSubjectProperties w); calls := calls w |}.

Definition log_call (c : Call) (w : World) : World :=
  {| hooks := hooks w; gLdfQryCtx := gLdfQryCtx w;
     grSubjects := grSubjects w;
     grSubjectProperties := grSubjectProperties w;
     calls := calls w ++ [c] |}.

(* ================================================================== *)
(** ** Statements: completions over the world *)
(* ================================================================== *)

(** How a statement list completes: normally with a value, by a
    [return;], or by a [throw]. *)
Inductive Completion (A : Type) : Type :=
| Normal (a : A)
| Return
| Throw (t : Thrown).

Arguments Normal {A} a.
Arguments Return {A}.
Arguments Throw {A} t.

Definition M (A : Type) : Type := World -> Completion A * World.

Definition ret {A} (a : A) : M A := fun w => (Normal a, w).

Definition bind {A B} (m : M A) (k : A -> M B) : M B :=
  fun w =>
    match m w with
    | (Normal a, w') => k a w'
    | (Return, w') => (Return, w')
    | (Throw e, w') => (Throw e, w')
    end.

Definition throw {A} (t : Thrown) : M A := fun w => (Throw t, w).

(** [ex.message] and [ex.toString()] in a statement. *)
Definition get_message (ex : Thrown) : M JsValue :=
  match Thrown_message ex with
  | inl v => ret v
  | inr t => throw t
  end.

Definition call_toString (ex : Thrown) : M jsstring :=
  match Thrown_toString ex with
  | inl text => ret text
  | inr t => throw t
  end.

Definition return_ {A} : M A := fun w => (Return, w).

Definition modify (f : World -> World) : M unit := fun w => (Normal tt, f w).

Definition gets {A} (f : World -> A) : M A := fun w => (Normal (f w), w).

Definition when (b : bool) (m : M unit) : M unit := if b then m else ret tt.

(** [try { m } catch (ex) { h ex }] *)
Definition try_catch {A} (m : M A) (h : Thrown -> M A) : M A :=
  fun w =>
    match m w with
    | (Throw e, w') => h e w'
    | r => r
    end.

(** [try { m } finally { f }]: [f] runs however [m] completes, and an
    abrupt completion of [f] replaces that of [m]. *)
Definition try_finally {A} (m : M A) (f : M unit) : M A :=
  fun w =>
    let (c, w') := m w in
    match f w' with
    | (Normal _, w'') => (c, w'')
    | (Return, w'') => (Return, w'')
    | (Throw e, w'') => (Throw e, w'')
    end.

(** The boundary of a function without a result: [return;] ends the
    call, an exception leaves it. *)
Definition fn (body : M unit) : M unit :=
  fun w =>
    match body w with
    | (Return, w') => (Normal tt, w')
    | r => r
    end.

(** [for await (const v of p) { body v }], with the loop's local state
    passed along. *)
Fixpoint forAwait {S} (p : Producer) (body : Proxy -> S -> M S) (s : S)
  : M S :=
  match p with
  | Done => ret s
  | Yield v rest => bind (body v s) (forAwait rest body)
  | Raise e => throw e
  end.

Declare Scope js_scope.
Delimit Scope js_scope with js.
Notation "x <- m ;; k" := (bind m (fun x => k))
  (at level 61, m at next level, right associativity) : js_scope.
Notation "m ;; k" := (bind m (fun _ => k))
  (at level 61, right associativity) : js_scope.
Open Scope js_scope.

(* ================================================================== *)
(** ** The component [LdFlexClient] *)
(* ================================================================== *)

(** [!s || !s.trim()] for a string [s]. *)
Definition blank (s : jsstring) : bool :=
  negb (JsString.truthy s) || negb (JsString.truthy (JsString.trim s)).

(** The [set...] functions of the hooks: each replaces one value of
    the next render. *)
Definition setLdfQryCtxStale (v : Z) : M unit :=
  modify (with_hooks (fun h =>
    mkHooks v (source h) (ldfSubject h) (ldfProperty h) (context h)
      (ldfDataPath h) (queryResult h) (status h) (responsePending h))).

Definition setSource (v : jsstring) : M unit :=
  modify (with_hooks (fun h =>
    mkHooks (ldfQryCtxStale h) v (ldfSubject h) (ldfProperty h) (context h)
      (ldfDataPath h) (queryResult h) (status h) (responsePending h))).

Definition setLdfSubject (v : option jsstring) : M unit :=
  modify (with_hooks (fun h =>
    mkHooks (ldfQryCtxStale h) (source h) v (ldfProperty h) (context h)
      (ldfDataPath h) (queryResult h) (status h) (responsePending h))).

Definition setLdfProperty (v : option jsstring) : M unit :=
  modify (with_hooks (fun h =>
    mkHooks (ldfQryCtxStale h) (source h) (ldfSubject h) v (context h)
      (ldfDataPath h) (queryResult h) (status h) (responsePending h))).

Definition setContext (v : jsstring) : M unit :=
  modify (with_hooks (fun h =>
    mkHooks (ldfQryCtxStale h) (source h) (ldfSubject h) (ldfProperty h) v
      (ldfDataPath h) (queryResult h) (status h) (responsePending h))).

Definition setLdfDataPath (v : jsstring) : M unit :=
  modify (with_hooks (fun h =>
    mkHooks (ldfQryCtxStale h) (source h) (ldfSubject h) (ldfProperty h)
      (context h) v (queryResult h) (status h) (responsePending h))).

Definition setQueryResult (v : option (list jsstring)) : M unit :=
  modify (with_hooks (fun h =>
    mkHooks (ldfQryCtxStale h) (source h) (ldfSubject h) (ldfProperty h)
      (context h) (ldfDataPath h) v (status h) (responsePending h))).

Definition setStatus (v : option jsstring) : M unit :=
  modify (with_hooks (fun h =>
    mkHooks (ldfQryCtxStale h) (source h) (ldfSubject h) (ldfProperty h)
      (context h) (ldfDataPath h) (queryResult h) v (responsePending h))).

Definition setResponsePending (v : bool) : M unit :=
  modify (with_hooks (fun h =>
    mkHooks (ldfQryCtxStale h) (source h) (ldfSubject h) (ldfProperty h)
      (context h) (ldfDataPath h) (queryResult h) (status h) v)).

(** Assignments to the slots of [gLdfQryCtx]. *)
Definition set_queryEngine (e : ComunicaEngine) : M unit :=
  modify (with_gLdfQryCtx (fun c =>
    mkQryCtx (Some e) (pathFactory c) (subjectPath c))).

Definition set_pathFactory (pf : PathFactory) : M unit :=
  modify (with_gLdfQryCtx (fun c =>
    mkQryCtx (queryEngine c) (Some pf) (subjectPath c))).

Definition set_subjectPath (p : Path) : M unit :=
  modify (with_gLdfQryCtx (fun c =>
    mkQryCtx (queryEngine c) (pathFactory c) (Some p))).

(** The three constructions, each entered in the log. *)
Definition construct_ComunicaEngine (src : jsstring) : M ComunicaEngine :=
  modify (log_call (CallComunicaEngine src)) ;;
  ret (new_ComunicaEngine src).

Definition construct_PathFactory (ctx : option Json)
  (engine : option ComunicaEngine) : M PathFactory :=
  modify (log_call (CallPathFactory ctx engine)) ;;
  ret (new_PathFactory ctx engine).

Definition create (pf : PathFactory) (subject : NamedNode) : M Path :=
  modify (log_call (CallCreate pf subject)) ;;
  ret (PathFactory_create pf subject).

Definition clearQueryResultAndStatus : M unit :=
  setQueryResult None ;;
  setStatus None.

Definition clearLdfSubject : M unit :=
  setLdfSubject None ;;
  setLdfProperty None ;;
  modify (with_grSubjects (fun _ => [])) ;;
  modify (with_grSubjectProperties (fun _ => [])).

Section Render.

(** The environment, and the hook values of the render whose closures
    the handlers are: a handler reads [r] throughout, whatever it has
    set for the next render. *)
Variable ext : Extern.
Variable r : Hooks.

Definition JSON_parse_ (text : jsstring) : M Json :=
  match JSON_parse ext text with
  | inl j => ret j
  | inr e => throw e
  end.

Definition new_URL (text : jsstring) : M URL :=
  match URL_parse ext text with
  | inl u => ret u
  | inr e => throw e
  end.

Definition refreshLdfQryCtxEngine : M unit :=
  when (truthy (js_and (ldfQryCtxStale r) QC_STALE_SOURCE_CHANGED))
    (e <- construct_ComunicaEngine (source r) ;;
     set_queryEngine e ;;
     setLdfQryCtxStale (Z.lxor (ldfQryCtxStale r) QC_STALE_SOURCE_CHANGED)).

Definition refreshLdfQryCtx : M unit :=
  when (truthy (js_and (ldfQryCtxStale r) QC_STALE_SOURCE_CHANGED))
    (e <- construct_ComunicaEngine (source r) ;;
     set_queryEngine e) ;;
  when (truthy (js_and (ldfQryCtxStale r)
                  (Z.lor QC_STALE_SOURCE_CHANGED QC_STALE_CONTEXT_CHANGED)))
    (contextObj <- JSON_parse_ (context r) ;;
     engine <- gets (fun w => queryEngine (gLdfQryCtx w)) ;;
     pf <- construct_PathFactory (Some contextObj) engine ;;
     set_pathFactory pf) ;;
  when (truthy (js_and (ldfQryCtxStale r)
                  (Z.lor (Z.lor QC_STALE_SOURCE_CHANGED
                                QC_STALE_CONTEXT_CHANGED)
                         QC_STALE_SUBJECT_CHANGED)))
    (opf <- gets (fun w => pathFactory (gLdfQryCtx w)) ;;
     match opf with
     | None => throw (TypeError_null "create")
     | Some pf =>
         p <- create pf (namedNode (ldfSubject r)) ;;
         set_subjectPath p
     end) ;;
  setLdfQryCtxStale QC_VALID.

Definition validateSource : M jsstring :=
  try_catch
    (when (negb (JsString.truthy (source r))
           || negb (JsString.truthy (JsString.trim (source r))))
       (throw (new_Error (str "Empty string"))) ;;
     let src := JsString.trim (source r) in
     parsedSourceUrl <- new_URL src ;;
     when (JsString.eqb (origin parsedSourceUrl) (str "null"))
       (throw (new_Error (str "URL parsing error"))) ;;
     ret src)
    (fun ex =>
       m <- get_message ex ;;
       throw (new_Error (str "Invalid source URL: " ++ JsValue_toString m))).

(** The last [try] block of [execQuery]. *)
Definition execQuery_try : M unit :=
  when (truthy (ldfQryCtxStale r)) refreshLdfQryCtx ;;
  osp <- gets (fun w => subjectPath (gLdfQryCtx w)) ;;
  match osp with
  | None => throw (TypeError_null "resolve")
  | Some sp =>
      let resolvedDataPath := Path_resolve ext sp (ldfDataPath r) in
      data <- forAwait resolvedDataPath
                (fun val data => ret (JsSet.add (toString val) data))
                JsSet.empty ;;
      setQueryResult (Some (JsSet.spread data)) ;;
      return_
  end.

(** The [catch] clause of that [try] block. *)
Definition execQuery_catch (ex : Thrown) : M unit :=
  text <- call_toString ex ;;
  setStatus (Some (str "Query execution failed: " ++ text)) ;;
  return_.

Definition execQuery : M unit :=
  fn (clearQueryResultAndStatus ;;
      try_catch (_ <- validateSource ;; ret tt)
        (fun ex =>
           m <- get_message ex ;;
           setStatus (JsValue_status m) ;;
           return_) ;;
      try_catch
        (when (blank_opt (ldfSubject r))
           (throw (new_Error (str "No subject selected."))))
        (fun ex =>
           m <- get_message ex ;;
           setStatus (Some (str "Invalid subject URI: " ++ JsValue_toString m)) ;;
           return_) ;;
      try_catch
        (when (blank (context r))
           (throw (new_Error (str "Empty JSON-LD context"))) ;;
         _ <- JSON_parse_ (context r) ;;
         ret tt)
        (fun ex =>
           text <- call_toString ex ;;
           setStatus (Some (str "Invalid context: " ++ text)) ;;
           return_) ;;
      try_catch
        (when (blank (ldfDataPath r))
           (throw (new_Error (str "Data path not set"))))
        (fun ex =>
           text <- call_toString ex ;;
           setStatus (Some (str "Invalid LDflex data path: " ++ text)) ;;
           return_) ;;
      try_finally (try_catch execQuery_try execQuery_catch)
        (setResponsePending false)).

(** The body of the loop of [getSourceSubjects]. *)
Definition getSourceSubjects_each (subject : Proxy) (_ : unit) : M unit :=
  let subjectUri := toString subject in
  (* Filter out blank nodes *)
  when (JsString.startsWith (str "http") subjectUri)
    (modify (with_grSubjects (fun l => l ++ [subjectUri]))).

(** The [try] block of [getSourceSubjects]. *)
Definition getSourceSubjects_try : M unit :=
  src <- validateSource ;;
  when (truthy (ldfQryCtxStale r)) refreshLdfQryCtxEngine ;;
  engine <- gets (fun w => queryEngine (gLdfQryCtx w)) ;;
  pathFactory <- construct_PathFactory None engine ;;
  srcPath <- create pathFactory (namedNode (Some src)) ;;
  setResponsePending true ;;
  forAwait (Path_subjects ext srcPath) getSourceSubjects_each tt ;;
  subjects <- gets grSubjects ;;
  match subjects with
  | first :: _ => setLdfSubject (Some first)
  | [] => ret tt
  end.

(** The [catch] clause of [getSourceSubjects]. *)
Definition getSourceSubjects_catch (ex : Thrown) : M unit :=
  m <- get_message ex ;;
  setStatus (JsValue_status m) ;;
  setLdfQryCtxStale QC_STALE_SOURCE_CHANGED ;;
  setLdfSubject None.

Definition getSourceSubjects : M unit :=
  fn (clearQueryResultAndStatus ;;
      modify (with_grSubjects (fun _ => [])) ;;
      try_finally (try_catch getSourceSubjects_try getSourceSubjects_catch)
        (setResponsePending false)).

(** The body of the loop of [getSubjectProperties]. *)
Definition getSubjectProperties_each (property : Proxy) (_ : unit)
  : M unit :=
  let propertyUri := toString property in
  modify (with_grSubjectProperties (fun l => l ++ [propertyUri])).

(** The [try] block of [getSubjectProperties]. *)
Definition getSubjectProperties_try : M unit :=
  when (blank_opt (ldfSubject r))
    (throw (new_Error (str "Error: No subject selected."))) ;;
  engine <- gets (fun w => queryEngine (gLdfQryCtx w)) ;;
  when (match engine with None => true | Some _ => false end)
    (throw (new_Error (str "Error: Query engine not instantiated."))) ;;
  pathFactory <- construct_PathFactory None engine ;;
  subjectPath <- create pathFactory (namedNode (ldfSubject r)) ;;
  setResponsePending true ;;
  forAwait (Path_properties ext subjectPath) getSubjectProperties_each tt ;;
  properties <- gets grSubjectProperties ;;
  match properties with
  | first :: _ => setLdfProperty (Some first)
  | [] => ret tt
  end.

(** The [catch] clause of [getSubjectProperties]. *)
Definition getSubjectProperties_catch (ex : Thrown) : M unit :=
  m <- get_message ex ;;
  setStatus (JsValue_status m) ;;
  setLdfProperty None.

Definition getSubjectProperties : M unit :=
  fn (modify (with_grSubjectProperties (fun _ => [])) ;;
      try_finally
        (try_catch getSubjectProperties_try getSubjectProperties_catch)
        (setResponsePending false)).

Definition sourceChangeHandler (value : jsstring) : M unit :=
  fn (clearQueryResultAndStatus ;;
      clearLdfSubject ;;
      setSource value ;;
      setLdfQryCtxStale QC_STALE_SOURCE_CHANGED).

Definition contextChangeHandler (value : jsstring) : M unit :=
  fn (clearQueryResultAndStatus ;;
      setContext value ;;
      setLdfQryCtxStale QC_STALE_CONTEXT_CHANGED).

Definition lstSubjectChangeHandler (value : jsstring) : M unit :=
  fn (clearQueryResultAndStatus ;;
      setLdfSubject (Some value) ;;
      setLdfQryCtxStale QC_STALE_SUBJECT_CHANGED).

End Render.

(** A handler invoked on the displayed component: its closure holds the
    hook values of the latest render. *)
Definition invoke {A} (handler : Hooks -> M A) (w : World)
  : Completion A * World :=
  handler (hooks w) w.

(* ================================================================== *)
(** ** The first render and a test environment *)
(* ================================================================== *)

Definition dq : jsstring := [34%N].
Definition nl : jsstring := [10%N].

Definition defaultContext : jsstring :=
  str "{" ++ nl
  ++ str "  " ++ dq ++ str "@context" ++ dq ++ str ": {" ++ nl
  ++ str "    " ++ dq ++ str "@vocab" ++ dq ++ str ": "
     ++ dq ++ str "http://xmlns.com/foaf/0.1/" ++ dq ++ str "," ++ nl
  ++ str "    " ++ dq ++ str "friends" ++ dq ++ str ": "
     ++ dq ++ str "knows" ++ dq ++ str "," ++ nl
  ++ str "    " ++ dq ++ str "label" ++ dq ++ str ": "
     ++ dq ++ str "http://www.w3.org/2000/01/rdf-schema#label" ++ dq ++ nl
  ++ str "  }" ++ nl
  ++ str "}".

Definition defaultSource : jsstring := str "https://ruben.verborgh.org/profile/".

Definition dataPathPresets : list jsstring :=
  [str ".interest.label"; str ".interest"; str ".name"].

Definition defaultLdfDataPath : jsstring := hd [] dataPathPresets.

(** The hook values of the first render of a page without a query
    string, and the module-level variables as they are initialised. *)
Definition initial_hooks : Hooks :=
  {| ldfQryCtxStale := QC_STALE_SOURCE_CHANGED;
     source := defaultSource;
     ldfSubject := None;
     ldfProperty := None;
     context := defaultContext;
     ldfDataPath := defaultLdfDataPath;
     queryResult := None;
     status := None;
     responsePending := false |}.

Definition initial_world : World :=
  {| hooks := initial_hooks;
     gLdfQryCtx := mkQryCtx None None None;
     grSubjects := [];
     grSubjectProperties := [];
     calls := [] |}.

(** A test environment: a URL parser that knows [http:], [https:] (with
    the text itself standing for the origin) and the opaque [urn:] and
    [data:] schemes, a JSON parser that accepts texts opening a brace,
    and paths producing the given sequences. *)
Definition mock (resolved subjects properties : Producer) : Extern :=
  {| URL_parse := fun s =>
       if JsString.startsWith (str "http://") s
          || JsString.startsWith (str "https://") s
       then inl (mkURL s)
       else if JsString.startsWith (str "urn:") s
               || JsString.startsWith (str "data:") s
       then inl (mkURL (str "null"))
       else inr (mkError (str "TypeError") (str "Invalid URL"));
     JSON_parse := fun s =>
       if JsString.startsWith (str "{") s then inl (JObject [])
       else inr (mkError (str "SyntaxError") (str "Unexpected token"));
     Path_resolve := fun _ _ => resolved;
     Path_subjects := fun _ => subjects;
     Path_properties := fun _ => properties |}.

Definition proxies (l : list string) : list Proxy :=
  map (fun s => mkProxy (str s)) l.

(** The first render after a subject has been selected from the list. *)
Definition world_with_subject : World :=
  snd (lstSubjectChangeHandler (str "https://ruben.verborgh.org/profile/#me")
         initial_world).

(** The hook values after the source field has been edited to [s]. *)
Definition hooks_with_source (s : string) : Hooks :=
  hooks (snd (sourceChangeHandler (str s) initial_world)).

(** An error raised by the data source while it is read. *)
Definition fetch_failed : Error :=
  {| name := str "Error"; message := str "Failed to fetch" |}.

(** The world in which the [try] block of [getSourceSubjects] starts. *)
Definition subjects_try_start (w : World) : World :=
  snd ((clearQueryResultAndStatus ;;
        modify (with_grSubjects (fun _ => []))) w).

(** The path whose subjects [getSourceSubjects] lists, for a source
    that validates to [src]: a path on the engine that
    [refreshLdfQryCtxEngine] leaves in the engine slot. *)
Definition sourcePath (r : Hooks) (w : World) (src : jsstring) : Path :=
  PathFactory_create
    (new_PathFactory None
       (if truthy (ldfQryCtxStale r)
        then Some (new_ComunicaEngine (source r))
        else queryEngine (gLdfQryCtx w)))
    (namedNode (Some src)).

(** The path whose properties [getSubjectProperties] lists. *)
Definition subjectPropertiesPath (r : Hooks) (engine : ComunicaEngine)
  : Path :=
  PathFactory_create (new_PathFactory None (Some engine))
    (namedNode (ldfSubject r)).

(** The first element of a list, or the given default. *)
Definition first_or (l : list jsstring) (d : option jsstring)
  : option jsstring :=
  match l with
  | x :: _ => Some x
  | [] => d
  end.

(* ================================================================== *)
(** ** Input-change events *)
(* ================================================================== *)

(** The three edits that invalidate the query context. *)
Inductive InputChange : Type :=
| SourceEdited (value : jsstring)
| ContextEdited (value : jsstring)
| SubjectSelected (value : jsstring).

Definition onInputChanged (ev : InputChange) : M unit :=
  match ev with
  | SourceEdited v => sourceChangeHandler v
  | ContextEdited v => contextChangeHandler v
  | SubjectSelected v => lstSubjectChangeHandler v
  end.

(** The constant that the handler of an edit passes to
    [setLdfQryCtxStale]. *)
Definition stale_constant (ev : InputChange) : Z :=
  match ev with
  | SourceEdited _ => QC_STALE_SOURCE_CHANGED
  | ContextEdited _ => QC_STALE_CONTEXT_CHANGED
  | SubjectSelected _ => QC_STALE_SUBJECT_CHANGED
  end.

(** The world after a sequence of edits, each handled in turn. *)
Fixpoint after_changes (evs : list InputChange) (w : World) : World :=
  match evs with
  | [] => w
  | ev :: evs' => after_changes evs' (snd (onInputChanged ev w))
  end.

(** The staleness value of the next render. *)
Definition stale (w : World) : Z := ldfQryCtxStale (hooks w).

(* ================================================================== *)
(** ** Reference definitions for the properties *)
(* ================================================================== *)

(** The distinct members of a list, each at its first occurrence. *)
Fixpoint distinct (l : list jsstring) : list jsstring :=
  match l with
  | [] => []
  | x :: l' => x :: filter (fun y => negb (JsString.eqb y x)) (distinct l')
  end.

(** What [validateSource] comes to, as a function of the source text:
    the cases of its inner [try] and the rethrow of its [catch]. *)
Definition validateSource_result (ext : Extern) (src : jsstring)
  : Completion jsstring :=
  if JsString.whitespaceOnly src
  then Throw (new_Error (str "Invalid source URL: " ++ str "Empty string"))
  else
    match URL_parse ext (JsString.trim src) with
    | inr e => Throw (new_Error (str "Invalid source URL: " ++ message e))
    | inl u =>
        if JsString.eqb (origin u) (str "null")
        then Throw (new_Error (str "Invalid source URL: "
                               ++ str "URL parsing error"))
        else Normal (JsString.trim src)
    end.

(** A subject that is [null], empty or made of white space only. *)
Definition emptySubject (o : option jsstring) : bool :=
  match o with
  | None => true
  | Some s => JsString.whitespaceOnly s
  end.

(** The four validations of [execQuery] pass. *)
Definition inputs_valid (ext : Extern) (r : Hooks) : bool :=
  match validateSource_result ext (source r) with
  | Normal _ => true
  | _ => false
  end
  && negb (emptySubject (ldfSubject r))
  && negb (JsString.whitespaceOnly (context r))
  && match JSON_parse ext (context r) with inl _ => true | inr _ => false end
  && negb (JsString.whitespaceOnly (ldfDataPath r)).

(** The subject path that [execQuery] resolves the data path against,
    once its validations have passed: the one in the slot when nothing
    is stale, the one [refreshLdfQryCtx] builds otherwise. *)
Definition entryPath (ext : Extern) (r : Hooks) (w : World) : option Path :=
  if truthy (ldfQryCtxStale r)
  then
    match JSON_parse ext (context r) with
    | inl contextObj =>
        Some (PathFactory_create
                (new_PathFactory (Some contextObj)
                   (Some (new_ComunicaEngine (source r))))
                (namedNode (ldfSubject r)))
    | inr _ => None
    end
  else subjectPath (gLdfQryCtx w).

(** An identifier that begins with the scheme [http:] or [https:]. *)
Definition beginsWithHttpScheme (s : jsstring) : bool :=
  JsString.startsWith (str "http:") s || JsString.startsWith (str "https:") s.

(* ================================================================== *)
(** ** The remaining handlers and the page around the component *)
(* ================================================================== *)

Definition dataPathChangeHandler (value : jsstring) : M unit :=
  fn (clearQueryResultAndStatus ;;
      setLdfDataPath value).

Definition lstPropertyChangeHandler (value : jsstring) : M unit :=
  fn (setLdfProperty (Some value) ;;
      clearQueryResultAndStatus).

(** The options of the output-format control, label and value. *)
Definition outputFormats : list (jsstring * jsstring) :=
  [(str "Tree", str "fmt_tree");
   (str "JSON (Compact)", str "fmt_json");
   (str "JSON (Formatted)", str "fmt_json_formatted")].

Definition defaultOutputFormat : jsstring := str "fmt_json_formatted".

Definition JsValue_truthy (v : JsValue) : bool :=
  match v with
  | JsStr s => JsString.truthy s
  | _ => false
  end.

(** [v ? v : d] for a string [d]. *)
Definition JsValue_or (v : JsValue) (d : jsstring) : jsstring :=
  match v with
  | JsStr s => if JsString.truthy s then s else d
  | _ => d
  end.

(** The object returned by [getQueryStringParams]. *)
Record QueryStringParams : Type := mkQueryStringParams
  { qsSource : JsValue;
    qsQuery : JsValue;
    qsContext : JsValue;
    qsOutputFormat : JsValue }.

(** The browser functions under [getQueryStringParams]:
    [new URL(pageUrl).searchParams] as the list of its name-value
    pairs, or the error of the [URL] constructor, and
    [decodeURIComponent]. *)
Record Browser : Type := mkBrowser
  { URL_searchParams : jsstring -> list (jsstring * jsstring) + Error;
    decodeURIComponent : jsstring -> jsstring + Error }.

(** [params.has(name)] *)
Definition searchParams_has (params : list (jsstring * jsstring))
  (name : jsstring) : bool :=
  existsb (fun kv => JsString.eqb (fst kv) name) params.

(** [params.get(name)]: the first value of that name, or [null]. *)
Definition searchParams_get (params : list (jsstring * jsstring))
  (name : jsstring) : option jsstring :=
  match find (fun kv => JsString.eqb (fst kv) name) params with
  | Some kv => Some (snd kv)
  | None => None
  end.

(** [params.has(name) ? decodeURIComponent(params.get(name)).trim() : null] *)
Definition qs_param (b : Browser) (params : list (jsstring * jsstring))
  (name : string) : JsValue + Error :=
  if searchParams_has params (str name)
  then
    match decodeURIComponent b
            (match searchParams_get params (str name) with
             | Some v => v
             | None => str "null"
             end) with
    | inl decoded => inl (JsStr (JsString.trim decoded))
    | inr e => inr e
    end
  else inl JsNull.

(** The empty object that the [catch] clause returns. *)
Definition no_params : QueryStringParams :=
  mkQueryStringParams JsUndefined JsUndefined JsUndefined JsUndefined.

Definition getQueryStringParams (b : Browser) (pageUrl : jsstring)
  : QueryStringParams :=
  match URL_searchParams b pageUrl with
  | inr _ => no_params
  | inl params =>
      match qs_param b params "source" with
      | inr _ => no_params
      | inl qsSource =>
          match qs_param b params "query" with
          | inr _ => no_params
          | inl qsQuery =>
              match qs_param b params "context" with
              | inr _ => no_params
              | inl qsContext =>
                  match qs_param b params "format" with
                  | inr _ => no_params
                  | inl qsOutputFormat =>
                      mkQueryStringParams qsSource qsQuery qsContext
                        qsOutputFormat
                  end
              end
          end
      end
  end.

(** The component with the two hooks that the query context does not
    involve, and the entries it pushed on the session history. *)
Record Page : Type := mkPage
  { world : World;
    outputFormat : jsstring;
    queryPermalink : jsstring;
    history : list jsstring }.

(** The first render of [LdFlexClient] for a page URL: the initial
    values of the hooks. The render itself fails when the page URL
    does not parse, [new URL(props.pageUrl)] being outside any [try]. *)
Definition first_render (b : Browser) (pageUrl : jsstring) : Page + Error :=
  let qs := getQueryStringParams b pageUrl in
  match URL_searchParams b pageUrl with
  | inr e => inr e
  | inl _ =>
      inl {| world :=
               {| hooks :=
                    {| ldfQryCtxStale := QC_STALE_SOURCE_CHANGED;
                       source := JsValue_or (qsSource qs) defaultSource;
                       ldfSubject := None;
                       ldfProperty := None;
                       context := JsValue_or (qsContext qs) defaultContext;
                       ldfDataPath := defaultLdfDataPath;
                       queryResult := None;
                       status := None;
                       responsePending := false |};
                  gLdfQryCtx := mkQryCtx None None None;
                  grSubjects := [];
                  grSubjectProperties := [];
                  calls := [] |};
             outputFormat := JsValue_or (qsOutputFormat qs) defaultOutputFormat;
             queryPermalink := pageUrl;
             history := [] |}
  end.

(** A handler of the query context, run on the page. *)
Definition on_world (handler : Hooks -> M unit) (p : Page) : Page :=
  {| world := snd (invoke handler (world p));
     outputFormat := outputFormat p;
     queryPermalink := queryPermalink p;
     history := history p |}.

Definition setOutputFormat (v : jsstring) (p : Page) : Page :=
  {| world := world p;
     outputFormat := v;
     queryPermalink := queryPermalink p;
     history := history p |}.

(** [window.history.pushState({}, document.title, url)] *)
Definition pushState (url : jsstring) (p : Page) : Page :=
  {| world := world p;
     outputFormat := outputFormat p;
     queryPermalink := queryPermalink p;
     history := history p ++ [url] |}.

Definition outputFormatChangeHandler (value : jsstring) (p : Page) : Page :=
  setOutputFormat value p.

(** [resetDefaults], in a render whose [pageUrl.pathname] is
    [pathname]. *)
Definition resetDefaults (pathname : jsstring) (p : Page) : Page :=
  let p := on_world (fun _ => clearQueryResultAndStatus) p in
  let p := on_world (fun _ => clearLdfSubject) p in
  let p := on_world (fun _ => setSource defaultSource) p in
  let p := on_world (fun _ => setContext defaultContext) p in
  let p := on_world (fun _ => setLdfDataPath defaultLdfDataPath) p in
  let p := setOutputFormat defaultOutputFormat p in
  let p := on_world (fun _ => setLdfQryCtxStale QC_STALE_SOURCE_CHANGED) p in
  pushState pathname p.

(** What the user can do with the form. *)
Inductive Action : Type :=
| EditSource (value : jsstring)
| SelectSubject (value : jsstring)
| SelectProperty (value : jsstring)
| EditContext (value : jsstring)
| SelectDataPath (value : jsstring)
| SelectOutputFormat (value : jsstring)
| ClickSubjects
| ClickProperties
| ClickExecute
| ClickClear
| ClickDefaults.

(** A select control offers its options only. *)
Definition enabled (a : Action) (p : Page) : Prop :=
  match a with
  | SelectSubject v => In v (grSubjects (world p))
  | SelectProperty v => In v (grSubjectProperties (world p))
  | SelectDataPath v => In v dataPathPresets
  | SelectOutputFormat v => In v (map snd outputFormats)
  | _ => True
  end.

(** The page after an action, in an environment [ext]. *)
Definition perform (ext : Extern) (pathname : jsstring) (a : Action)
  (p : Page) : Page :=
  match a with
  | EditSource v => on_world (fun _ => sourceChangeHandler v) p
  | SelectSubject v => on_world (fun _ => lstSubjectChangeHandler v) p
  | SelectProperty v => on_world (fun _ => lstPropertyChangeHandler v) p
  | EditContext v => on_world (fun _ => contextChangeHandler v) p
  | SelectDataPath v => on_world (fun _ => dataPathChangeHandler v) p
  | SelectOutputFormat v => outputFormatChangeHandler v p
  | ClickSubjects => on_world (getSourceSubjects ext) p
  | ClickProperties => on_world (getSubjectProperties ext) p
  | ClickExecute => on_world (execQuery ext) p
  | ClickClear => on_world (fun _ => clearQueryResultAndStatus) p
  | ClickDefaults => resetDefaults pathname p
  end.

(** The pages that a session can show: a first render, then any
    actions, the environment answering each as it likes. *)
Inductive reachable (b : Browser) (pageUrl pathname : jsstring)
  : Page -> Prop :=
| reachable_first (p : Page) :
    first_render b pageUrl = inl p -> reachable b pageUrl pathname p
| reachable_step (p : Page) (ext : Extern) (a : Action) :
    reachable b pageUrl pathname p -> enabled a p ->
    reachable b pageUrl pathname (perform ext pathname a p).

(** The three slots as [refreshLdfQryCtx] builds them in a render [r]
    whose context parses to [contextObj]. *)
Definition rebuilt_chain (r : Hooks) (contextObj : Json) : QryCtx :=
  let engine := new_ComunicaEngine (source r) in
  let pf := new_PathFactory (Some contextObj) (Some engine) in
  {| queryEngine := Some engine;
     pathFactory := Some pf;
     subjectPath := Some (PathFactory_create pf (namedNode (ldfSubject r))) |}.

(** The constructions that build them, in order. *)
Definition rebuild_calls (r : Hooks) (contextObj : Json) : list Call :=
  let engine := new_ComunicaEngine (source r) in
  let pf := new_PathFactory (Some contextObj) (Some engine) in
  [CallComunicaEngine (source r);
   CallPathFactory (Some contextObj) (Some engine);
   CallCreate pf (namedNode (ldfSubject r))].

(** The staleness values that occur: every combination of flags but
    those with the context and the subject flag both set. *)
Definition stale_occurs (st : Z) : bool :=
  existsb (Z.eqb st) [0; 1; 2; 4; 5; 6]%Z.

(** The values that a producer yields before it ends or rejects. *)
Fixpoint produced (p : Producer) : list Proxy :=
  match p with
  | Done => []
  | Yield v rest => v :: produced rest
  | Raise _ => []
  end.

(** The error that a producer rejects with, if it does. *)
Fixpoint rejection (p : Producer) : option Thrown :=
  match p with
  | Done => None
  | Yield _ rest => rejection rest
  | Raise t => Some t
  end.

(** The identifiers that [getSourceSubjects] keeps of a producer. *)
Definition kept_subjects (p : Producer) : list jsstring :=
  filter (JsString.startsWith (str "http")) (map toString (produced p)).

(** Two worlds with the same query context: slots, constructions and
    staleness value. *)
Definition same_chain (w w' : World) : Prop :=
  gLdfQryCtx w' = gLdfQryCtx w
  /\ calls w' = calls w
  /\ stale w' = stale w.

(** Two worlds with the same form inputs. *)
Definition same_inputs (w w' : World) : Prop :=
  source (hooks w') = source (hooks w)
  /\ context (hooks w') = context (hooks w)
  /\ ldfDataPath (hooks w') = ldfDataPath (hooks w).

(** Two worlds with the same selections and option lists. *)
Definition same_selection (w w' : World) : Prop :=
  ldfSubject (hooks w') = ldfSubject (hooks w)
  /\ ldfProperty (hooks w') = ldfProperty (hooks w)
  /\ grSubjects w' = grSubjects w
  /\ grSubjectProperties w' = grSubjectProperties w.

(** The engine slot holds an engine. *)
Definition engine_built (w : World) : Prop :=
  queryEngine (gLdfQryCtx w) <> None.

(** What every page of a session satisfies. *)
Definition session_invariant (w : World) : Prop :=
  stale_occurs (stale w) = true
  /\ (stale w = QC_VALID -> engine_built w)
  /\ (grSubjects w <> [] -> engine_built w)
  /\ (ldfSubject (hooks w) <> None -> engine_built w).

(** What the last [try] block of [execQuery] gets from the subject
    path in the slot: the distinct string forms of the values produced,
    or the error of a missing path or of a rejecting producer. *)
Definition drained (ext : Extern) (dataPath : jsstring) (osp : option Path)
  : list jsstring + Thrown :=
  match osp with
  | None => inr (ThrownError (TypeError_null "resolve"))
  | Some sp =>
      let p := Path_resolve ext sp dataPath in
      match rejection p with
      | None => inl (distinct (map toString (produced p)))
      | Some t => inr t
      end
  end.

(** The world in which [execQuery] drains the producer, once its
    validations have passed: result and status cleared, and the chain
    rebuilt if anything was stale. *)
Definition refreshed (w : World) (contextObj : Json) : World :=
  if truthy (stale w)
  then snd (setLdfQryCtxStale QC_VALID
         {| hooks := hooks (snd (clearQueryResultAndStatus w));
            gLdfQryCtx := rebuilt_chain (hooks w) contextObj;
            grSubjects := grSubjects w;
            grSubjectProperties := grSubjectProperties w;
            calls := calls w ++ rebuild_calls (hooks w) contextObj |})
  else snd (clearQueryResultAndStatus w).

(** A test browser: the page URL has the given parameters, and
    [decodeURIComponent] rejects the texts that hold a percent sign. *)
Definition browser_mock (params : list (jsstring * jsstring)) : Browser :=
  {| URL_searchParams := fun _ => inl params;
     decodeURIComponent := fun s =>
       if existsb (N.eqb 37) s
       then inr (mkError (str "URIError") (str "URI malformed"))
       else inl s |}.

(** The first render of that page. *)
Definition first_page (params : list (jsstring * jsstring)) : Page :=
  match first_render (browser_mock params) (str "https://flexpress.example/") with
  | inl p => p
  | inr _ => mkPage initial_world [] [] []
  end.

(** Unfolding of the statement combinators, for symbolic runs. *)
Ltac run :=
  cbv [bind ret throw return_ modify gets when try_catch try_finally fn
       invoke stale setLdfQryCtxStale setSource setLdfSubject setLdfProperty
       setContext setLdfDataPath setQueryResult setStatus setResponsePending
       set_queryEngine set_pathFactory set_subjectPath
       construct_ComunicaEngine construct_PathFactory create
       clearQueryResultAndStatus clearLdfSubject
       with_hooks with_gLdfQryCtx with_grSubjects with_grSubjectProperties
       log_call JSON_parse_ new_URL get_message call_toString
       Thrown_message Thrown_toString JsValue_status JsValue_toString] in *;
  cbn [fst snd hooks gLdfQryCtx grSubjects grSubjectProperties calls
       ldfQryCtxStale source ldfSubject ldfProperty context ldfDataPath
       queryResult status responsePending queryEngine pathFactory
       subjectPath] in *.

(** The same, leaving the reads of a thrown value folded. *)
Ltac run_core :=
  cbv [bind ret throw return_ modify gets when try_catch try_finally fn
       invoke stale setLdfQryCtxStale setSource setLdfSubject setLdfProperty
       setContext setLdfDataPath setQueryResult setStatus setResponsePending
       set_queryEngine set_pathFactory set_subjectPath
       construct_ComunicaEngine construct_PathFactory create
       clearQueryResultAndStatus clearLdfSubject
       with_hooks with_gLdfQryCtx with_grSubjects with_grSubjectProperties
       log_call JSON_parse_ new_URL];
  cbn [fst snd hooks gLdfQryCtx grSubjects grSubjectProperties calls
       ldfQryCtxStale source ldfSubject ldfProperty context ldfDataPath
       queryResult status responsePending queryEngine pathFactory
       subjectPath].

(** Unfolding of the statement combinators in the goal only. *)
Ltac run_goal :=
  cbv [bind ret throw return_ modify gets when try_catch try_finally fn
       invoke stale setLdfQryCtxStale setSource setLdfSubject setLdfProperty
       setContext setLdfDataPath setQueryResult setStatus setResponsePending
       set_queryEngine set_pathFactory set_subjectPath
       construct_ComunicaEngine construct_PathFactory create
       clearQueryResultAndStatus clearLdfSubject
       with_hooks with_gLdfQryCtx with_grSubjects with_grSubjectProperties
       log_call JSON_parse_ new_URL get_message call_toString
       Thrown_message Thrown_toString JsValue_status JsValue_toString];
  cbn [fst snd hooks gLdfQryCtx grSubjects grSubjectProperties calls
       ldfQryCtxStale source ldfSubject ldfProperty context ldfDataPath
       queryResult status responsePending queryEngine pathFactory
       subjectPath].

(* ================================================================== *)
(** ** Staleness flags and the refresh functions *)
(* ================================================================== *)

Lemma truthy_js_and (a b : Z) :
  truthy (js_and a b) = truthy a && truthy b.
Proof.
  unfold js_and. destruct (truthy a) eqn:Ha; simpl; auto.
Qed.

(** Each guard of the refresh functions tests its left operand only. *)
Lemma guard_any_stale (st : Z) :
  truthy (js_and st QC_STALE_SOURCE_CHANGED) = truthy st
  /\ truthy (js_and st (Z.lor QC_STALE_SOURCE_CHANGED QC_STALE_CONTEXT_CHANGED))
     = truthy st
  /\ truthy (js_and st (Z.lor (Z.lor QC_STALE_SOURCE_CHANGED
                                     QC_STALE_CONTEXT_CHANGED)
                              QC_STALE_SUBJECT_CHANGED))
     = truthy st.
Proof.
  rewrite !truthy_js_and. cbn. rewrite !andb_true_r. auto.
Qed.

Lemma truthy_false_iff (z : Z) : truthy z = false <-> z = 0%Z.
Proof.
  unfold truthy. rewrite negb_false_iff. apply Z.eqb_eq.
Qed.

Lemma truthy_true_iff (z : Z) : truthy z = true <-> z <> 0%Z.
Proof.
  unfold truthy. rewrite negb_true_iff. apply Z.eqb_neq.
Qed.

(** Toggling the source bit leaves the two other flags alone. *)
Lemma lxor_source_frame (st : Z) :
  contextChanged (Z.lxor st QC_STALE_SOURCE_CHANGED) = contextChanged st
  /\ subjectChanged (Z.lxor st QC_STALE_SOURCE_CHANGED) = subjectChanged st.
Proof.
  unfold contextChanged, subjectChanged.
  rewrite !Z.lxor_spec. cbn. rewrite !xorb_false_r. auto.
Qed.

Lemma lxor_source_toggles (st : Z) :
  sourceChanged (Z.lxor st QC_STALE_SOURCE_CHANGED) = negb (sourceChanged st).
Proof.
  unfold sourceChanged. rewrite Z.lxor_spec. cbn.
  now destruct (Z.testbit st 2).
Qed.

(** What [refreshLdfQryCtxEngine] leaves alone, in every state: the
    path-factory and subject-path slots and the context and subject
    flags. *)
Lemma refreshLdfQryCtxEngine_frame (r : Hooks) (w : World) :
  ldfQryCtxStale (hooks w) = ldfQryCtxStale r ->
  let w' := snd (refreshLdfQryCtxEngine r w) in
  fst (refreshLdfQryCtxEngine r w) = Normal tt
  /\ pathFactory (gLdfQryCtx w') = pathFactory (gLdfQryCtx w)
  /\ subjectPath (gLdfQryCtx w') = subjectPath (gLdfQryCtx w)
  /\ contextChanged (stale w') = contextChanged (stale w)
  /\ subjectChanged (stale w') = subjectChanged (stale w).
Proof.
  intros Hst. unfold refreshLdfQryCtxEngine.
  destruct (truthy (js_and (ldfQryCtxStale r) QC_STALE_SOURCE_CHANGED));
    run; rewrite ?Hst; repeat split; auto; apply lxor_source_frame.
Qed.

(** When the source flag is set, [refreshLdfQryCtxEngine] builds the
    engine and clears that flag. *)
Lemma refreshLdfQryCtxEngine_clears (r : Hooks) (w : World) :
  sourceChanged (ldfQryCtxStale r) = true ->
  let w' := snd (refreshLdfQryCtxEngine r w) in
  sourceChanged (stale w') = false
  /\ queryEngine (gLdfQryCtx w') = Some (new_ComunicaEngine (source r))
  /\ calls w' = calls w ++ [CallComunicaEngine (source r)].
Proof.
  intros Hs. unfold refreshLdfQryCtxEngine.
  assert (Hnz : truthy (js_and (ldfQryCtxStale r) QC_STALE_SOURCE_CHANGED)
                = true).
  { destruct (guard_any_stale (ldfQryCtxStale r)) as [-> _].
    apply truthy_true_iff. intros E. rewrite E in Hs. discriminate. }
  rewrite Hnz. run. rewrite lxor_source_toggles, Hs. auto.
Qed.

(** A run of [refreshLdfQryCtx] that completes normally has set the
    staleness value to [QC_VALID] and no other hook. *)
Lemma refreshLdfQryCtx_normal (ext : Extern) (r : Hooks) (w w' : World) :
  refreshLdfQryCtx ext r w = (Normal tt, w') ->
  stale w' = QC_VALID
  /\ source (hooks w') = source (hooks w)
  /\ context (hooks w') = context (hooks w)
  /\ ldfSubject (hooks w') = ldfSubject (hooks w).
Proof.
  unfold refreshLdfQryCtx.
  destruct (guard_any_stale (ldfQryCtxStale r)) as (-> & -> & ->).
  destruct (truthy (ldfQryCtxStale r)); run.
  - destruct (JSON_parse ext (context r)); run; intros E;
      inversion E; subst; cbn; auto.
  - intros E; inversion E; subst; cbn; auto.
Qed.

(** With nothing stale, [refreshLdfQryCtx] constructs nothing and
    assigns no slot. *)
Lemma refreshLdfQryCtx_valid (ext : Extern) (r : Hooks) (w : World) :
  ldfQryCtxStale r = QC_VALID ->
  fst (refreshLdfQryCtx ext r w) = Normal tt
  /\ calls (snd (refreshLdfQryCtx ext r w)) = calls w
  /\ gLdfQryCtx (snd (refreshLdfQryCtx ext r w)) = gLdfQryCtx w
  /\ stale (snd (refreshLdfQryCtx ext r w)) = QC_VALID.
Proof.
  intros Hst. unfold refreshLdfQryCtx. rewrite Hst. run. auto.
Qed.

(* ------------------------------------------------------------------ *)
(** *** C1 *)

(** C1. The claim has the engine rebuilt exactly when the source flag
    is set. In the code the guard of the engine construction is the
    logical [ldfQryCtxStale && QC_STALE_SOURCE_CHANGED], which holds for
    every non-zero staleness value: when only the context flag is set,
    the guard holds although the source flag is clear, and
    [refreshLdfQryCtx] constructs a new engine from the source and
    assigns it to the engine slot. *)
Theorem C1_context_only_refresh_rebuilds_engine
  (ext : Extern) (r : Hooks) (w : World) :
  ldfQryCtxStale r = QC_STALE_CONTEXT_CHANGED ->
  let w' := snd (refreshLdfQryCtx ext r w) in
  sourceChanged (ldfQryCtxStale r) = false
  /\ truthy (js_and (ldfQryCtxStale r) QC_STALE_SOURCE_CHANGED) = true
  /\ queryEngine (gLdfQryCtx w') = Some (new_ComunicaEngine (source r))
  /\ exists rest, calls w' = calls w ++ CallComunicaEngine (source r) :: rest.
Proof.
  intros Hst. unfold refreshLdfQryCtx.
  destruct (guard_any_stale (ldfQryCtxStale r)) as (-> & -> & ->).
  rewrite Hst. change (truthy QC_STALE_CONTEXT_CHANGED) with true. run.
  destruct (JSON_parse ext (context r)) as [j | e]; run.
  - repeat split; auto.
    eexists. rewrite <- !app_assoc. cbn. reflexivity.
  - repeat split; auto. exists []. reflexivity.
Qed.

Lemma C1_context_only_refresh_rebuilds_engine_witness :
  let ext := mock Done Done Done in
  let w := snd (contextChangeHandler defaultContext initial_world) in
  queryEngine (gLdfQryCtx (snd (invoke (refreshLdfQryCtx ext) w)))
  = Some (new_ComunicaEngine defaultSource).
Proof.
  intros ext w.
  exact (proj1 (proj2 (proj2
    (C1_context_only_refresh_rebuilds_engine ext (hooks w) w eq_refl)))).
Defined.

(* ------------------------------------------------------------------ *)
(** *** C2 *)

(** C2, as stated, fails: a mark does not leave the other flags
    unchanged. From the first render, where the source flag is set,
    [contextChangeHandler] leaves a staleness value whose source flag
    is clear, although nothing has been rebuilt. *)
Lemma C2_mark_clears_other_flags :
  ~ (forall (w : World) (value : jsstring),
       let w' := snd (contextChangeHandler value w) in
       sourceChanged (stale w') = sourceChanged (stale w)
       /\ subjectChanged (stale w') = subjectChanged (stale w)).
Proof.
  intros H. destruct (H initial_world defaultContext) as [Hs _].
  cbv in Hs. discriminate.
Qed.

(** Marks construct nothing and assign no slot of the query context. *)
Lemma after_changes_frame (evs : list InputChange) (w : World) :
  calls (after_changes evs w) = calls w
  /\ gLdfQryCtx (after_changes evs w) = gLdfQryCtx w.
Proof.
  revert w. induction evs as [| ev evs IH]; intros w; cbn [after_changes].
  - auto.
  - destruct (IH (snd (onInputChanged ev w))) as [-> ->].
    destruct ev; cbn; auto.
Qed.

Lemma after_changes_app (evs1 evs2 : list InputChange) (w : World) :
  after_changes (evs1 ++ evs2) w = after_changes evs2 (after_changes evs1 w).
Proof.
  revert w. induction evs1 as [| ev evs1 IH]; intros w; cbn; auto.
Qed.

(** C2, amended. Each mark operation overwrites the staleness value
    with its own constant: after any sequence of input changes the
    staleness value is the constant of the last change, so its own flag
    is set and the two other flags are clear, whatever they were; the
    marks construct no resource and assign no slot. *)
Theorem C2_mark_overwrites_staleness
  (evs : list InputChange) (ev : InputChange) (w : World) :
  let w' := after_changes (evs ++ [ev]) w in
  stale w' = stale_constant ev
  /\ sourceChanged (stale w')
     = match ev with SourceEdited _ => true | _ => false end
  /\ contextChanged (stale w')
     = match ev with ContextEdited _ => true | _ => false end
  /\ subjectChanged (stale w')
     = match ev with SubjectSelected _ => true | _ => false end
  /\ calls w' = calls w
  /\ gLdfQryCtx w' = gLdfQryCtx w.
Proof.
  intros w'.
  assert (Hst : stale w' = stale_constant ev).
  { subst w'. rewrite after_changes_app. cbn [after_changes].
    destruct ev; reflexivity. }
  rewrite Hst. subst w'.
  destruct (after_changes_frame (evs ++ [ev]) w) as [-> ->].
  destruct ev; cbn; repeat split; reflexivity.
Qed.

(* ------------------------------------------------------------------ *)
(** *** C3 *)

(** C3. The claim has [refreshLdfQryCtxEngine] clear the source flag.
    Its guard is the logical [ldfQryCtxStale && QC_STALE_SOURCE_CHANGED],
    so for a staleness value that is not zero and whose source flag is
    clear (a context or subject change alone) the engine is constructed
    anew and the exclusive-or sets the source flag instead of clearing
    it. *)
Theorem C3_engine_refresh_sets_source_flag (r : Hooks) (w : World) :
  ldfQryCtxStale r <> 0%Z ->
  sourceChanged (ldfQryCtxStale r) = false ->
  let w' := snd (refreshLdfQryCtxEngine r w) in
  sourceChanged (stale w') = true
  /\ stale w' = Z.lxor (ldfQryCtxStale r) QC_STALE_SOURCE_CHANGED
  /\ calls w' = calls w ++ [CallComunicaEngine (source r)].
Proof.
  intros Hnz Hs. unfold refreshLdfQryCtxEngine.
  destruct (guard_any_stale (ldfQryCtxStale r)) as [-> _].
  apply truthy_true_iff in Hnz. rewrite Hnz. run.
  rewrite lxor_source_toggles, Hs. auto.
Qed.

Lemma C3_engine_refresh_sets_source_flag_witness :
  let w := snd (contextChangeHandler defaultContext initial_world) in
  stale w = 2%Z
  /\ stale (snd (invoke refreshLdfQryCtxEngine w)) = 6%Z
  /\ sourceChanged (stale (snd (invoke refreshLdfQryCtxEngine w))) = true.
Proof.
  intros w.
  assert (Hnz : ldfQryCtxStale (hooks w) <> 0%Z) by (cbv; discriminate).
  pose proof (C3_engine_refresh_sets_source_flag (hooks w) w Hnz eq_refl)
    as (Hs & Hv & _).
  split; [reflexivity | split; [exact Hv | exact Hs]].
Defined.

(* ------------------------------------------------------------------ *)
(** *** C8 *)

(** C8. After a call of [refreshLdfQryCtx] that completed, a second
    call in the next render, with the same source, context and subject,
    completes too, constructs nothing and leaves the three slots as
    they are; the guarded call in [execQuery] does not even run it. *)
Theorem C8_refresh_twice_rebuilds_nothing
  (ext : Extern) (w w1 : World) :
  invoke (refreshLdfQryCtx ext) w = (Normal tt, w1) ->
  let second := invoke (refreshLdfQryCtx ext) w1 in
  source (hooks w1) = source (hooks w)
  /\ context (hooks w1) = context (hooks w)
  /\ ldfSubject (hooks w1) = ldfSubject (hooks w)
  /\ fst second = Normal tt
  /\ calls (snd second) = calls w1
  /\ gLdfQryCtx (snd second) = gLdfQryCtx w1
  /\ when (truthy (ldfQryCtxStale (hooks w1)))
       (refreshLdfQryCtx ext (hooks w1)) w1
     = (Normal tt, w1).
Proof.
  intros H1. unfold invoke in H1.
  apply refreshLdfQryCtx_normal in H1. destruct H1 as (Hv & Hs & Hc & Hj).
  destruct (refreshLdfQryCtx_valid ext (hooks w1) w1 Hv)
    as (Hn & Hcalls & Hq & _).
  cbv zeta. unfold invoke. repeat (split; [assumption |]).
  unfold stale in Hv. rewrite Hv. reflexivity.
Qed.

Lemma C8_refresh_twice_rebuilds_nothing_witness :
  let ext := mock Done Done Done in
  let w1 := snd (invoke (refreshLdfQryCtx ext) initial_world) in
  List.length (calls w1) = 3
  /\ calls (snd (invoke (refreshLdfQryCtx ext) w1)) = calls w1.
Proof.
  intros ext w1. split; [reflexivity |].
  exact (proj1 (proj2 (proj2 (proj2 (proj2
    (C8_refresh_twice_rebuilds_nothing ext initial_world w1 eq_refl)))))).
Defined.

(* ================================================================== *)
(** ** Strings and sets *)
(* ================================================================== *)

Lemma JsString_eqb_eq (a b : jsstring) : JsString.eqb a b = true <-> a = b.
Proof.
  revert b. induction a as [| x a IH]; intros [| y b]; cbn; split;
    try congruence; auto.
  - intros H. apply andb_true_iff in H. destruct H as [Hx Ha].
    apply N.eqb_eq in Hx. apply IH in Ha. congruence.
  - intros H. inversion H; subst. rewrite N.eqb_refl. cbn. now apply IH.
Qed.

Lemma JsString_eqb_refl (a : jsstring) : JsString.eqb a a = true.
Proof. now apply JsString_eqb_eq. Qed.

Lemma trimStart_nil_iff (s : jsstring) :
  JsString.trimStart s = [] <-> JsString.whitespaceOnly s = true.
Proof.
  unfold JsString.whitespaceOnly.
  induction s as [| c s IH]; cbn; [tauto |].
  destruct (JsString.isWhiteSpace c); cbn; [exact IH |].
  split; discriminate.
Qed.

Lemma trimStart_whitespaceOnly (s : jsstring) :
  JsString.whitespaceOnly (JsString.trimStart s) = JsString.whitespaceOnly s.
Proof.
  unfold JsString.whitespaceOnly.
  induction s as [| c s IH]; cbn; [reflexivity |].
  destruct (JsString.isWhiteSpace c) eqn:Hc; cbn; [exact IH |].
  now rewrite Hc.
Qed.

Lemma whitespaceOnly_rev (s : jsstring) :
  JsString.whitespaceOnly (rev s) = JsString.whitespaceOnly s.
Proof.
  unfold JsString.whitespaceOnly.
  induction s as [| c s IH]; cbn; [reflexivity |].
  rewrite forallb_app, IH. cbn. rewrite andb_true_r. apply andb_comm.
Qed.

(** [trim] leaves nothing exactly of the strings made of white space. *)
Lemma trim_nil_iff (s : jsstring) :
  JsString.trim s = [] <-> JsString.whitespaceOnly s = true.
Proof.
  unfold JsString.trim, JsString.trimEnd.
  rewrite <- trimStart_whitespaceOnly, <- whitespaceOnly_rev,
    <- trimStart_nil_iff.
  split; intros H.
  - apply (f_equal (@rev N)) in H. now rewrite rev_involutive in H.
  - now rewrite H.
Qed.

Lemma blank_whitespaceOnly (s : jsstring) :
  blank s = JsString.whitespaceOnly s.
Proof.
  unfold blank.
  destruct (JsString.whitespaceOnly s) eqn:Hw.
  - apply trim_nil_iff in Hw. rewrite Hw. cbn. apply orb_true_r.
  - destruct s as [| c s]; [discriminate |]. cbn [JsString.truthy negb orb].
    destruct (JsString.trim (c :: s)) eqn:Ht; [| reflexivity].
    apply trim_nil_iff in Ht. congruence.
Qed.

Lemma blank_opt_emptySubject (o : option jsstring) :
  blank_opt o = emptySubject o.
Proof.
  destruct o as [s |]; [| reflexivity]. apply (blank_whitespaceOnly s).
Qed.

Lemma JsSet_has_In (x : jsstring) (s : JsSet.t) :
  JsSet.has x s = true <-> In x s.
Proof.
  unfold JsSet.has. rewrite existsb_exists. split.
  - intros (y & Hy & E). apply JsString_eqb_eq in E. now subst.
  - intros H. exists x. split; [assumption | apply JsString_eqb_refl].
Qed.

Lemma filter_filter {A} (f g : A -> bool) (l : list A) :
  filter f (filter g l) = filter (fun y => g y && f y) l.
Proof.
  induction l as [| x l IH]; cbn; [reflexivity |].
  destruct (g x); cbn; [destruct (f x) |]; now rewrite IH.
Qed.

(** Adding the members of [l] in turn to a set [acc] appends to it the
    distinct members of [l] that it lacks. *)
Lemma fold_add_distinct (l : list jsstring) (acc : JsSet.t) :
  fold_left (fun data x => JsSet.add x data) l acc
  = acc ++ filter (fun y => negb (JsSet.has y acc)) (distinct l).
Proof.
  revert acc. induction l as [| x l IH]; intros acc; cbn [fold_left distinct].
  - cbn. now rewrite app_nil_r.
  - rewrite IH. unfold JsSet.add. cbn [filter].
    destruct (JsSet.has x acc) eqn:Hx; cbn [negb].
    + f_equal. rewrite filter_filter. apply filter_ext. intros y.
      destruct (JsString.eqb y x) eqn:E; cbn; [| reflexivity].
      apply JsString_eqb_eq in E. subst. now rewrite Hx.
    + rewrite <- app_assoc. cbn. do 2 f_equal.
      rewrite filter_filter. apply filter_ext. intros y.
      unfold JsSet.has. rewrite existsb_app. cbn. rewrite orb_false_r.
      rewrite negb_orb. apply andb_comm.
Qed.

Lemma distinct_In (x : jsstring) (l : list jsstring) :
  In x (distinct l) <-> In x l.
Proof.
  induction l as [| y l IH]; cbn; [tauto |].
  rewrite filter_In, IH, negb_true_iff.
  destruct (JsString.eqb x y) eqn:E.
  - apply JsString_eqb_eq in E. subst. intuition congruence.
  - assert (y <> x).
    { intros ->. rewrite JsString_eqb_refl in E. discriminate. }
    tauto.
Qed.

Lemma distinct_NoDup (l : list jsstring) : NoDup (distinct l).
Proof.
  induction l as [| y l IH]; cbn; constructor.
  - rewrite filter_In, JsString_eqb_refl. cbn. intros [_ H]. discriminate.
  - now apply NoDup_filter.
Qed.

(** A loop whose body only updates the loop's own state leaves the
    world as it is. *)
Lemma forAwait_local {S} (f : Proxy -> S -> S) (p : Producer) (s : S)
  (w : World) :
  snd (forAwait p (fun v d => ret (f v d)) s w) = w.
Proof.
  revert s. induction p as [| v rest IH | e]; intros s; cbn; auto.
Qed.

Lemma forAwait_yields {S} (f : Proxy -> S -> S) (vs : list Proxy) (s : S)
  (w : World) :
  forAwait (yields vs) (fun v d => ret (f v d)) s w
  = (Normal (fold_left (fun d v => f v d) vs s), w).
Proof.
  revert s. induction vs as [| v vs IH]; intros s; cbn; auto.
Qed.

Lemma forAwait_yields_then_raise {S} (f : Proxy -> S -> S) (vs : list Proxy)
  (t : Thrown) (s : S) (w : World) :
  forAwait (yields_then_raise vs t) (fun v d => ret (f v d)) s w
  = (Throw t, w).
Proof.
  revert s. induction vs as [| v vs IH]; intros s; cbn; auto.
Qed.

Lemma fold_left_map {A B C} (f : C -> B -> C) (g : A -> B) (l : list A)
  (c : C) :
  fold_left (fun d v => f d (g v)) l c = fold_left f (map g l) c.
Proof.
  revert c. induction l as [| x l IH]; intros c; cbn; auto.
Qed.

(* ================================================================== *)
(** ** [validateSource] *)
(* ================================================================== *)

Lemma validateSource_eq (ext : Extern) (r : Hooks) (w : World) :
  validateSource ext r w = (validateSource_result ext (source r), w).
Proof.
  unfold validateSource, validateSource_result.
  fold (blank (source r)). rewrite blank_whitespaceOnly.
  destruct (JsString.whitespaceOnly (source r)); run; [reflexivity |].
  destruct (URL_parse ext (JsString.trim (source r))) as [u | e]; run;
    [| reflexivity].
  destruct (JsString.eqb (origin u) (str "null")); reflexivity.
Qed.

(** [validateSource] returns the trimmed source or throws an [Error]
    object of its own. *)
Lemma validateSource_result_cases (ext : Extern) (src : jsstring) :
  validateSource_result ext src = Normal (JsString.trim src)
  \/ exists m,
       validateSource_result ext src
       = Throw (ThrownError (new_Error (str "Invalid source URL: " ++ m))).
Proof.
  unfold validateSource_result.
  destruct (JsString.whitespaceOnly src); [right; eauto |].
  destruct (URL_parse ext (JsString.trim src)) as [u | e]; [| right; eauto].
  destruct (JsString.eqb (origin u) (str "null")); [right; eauto | now left].
Qed.

(* ================================================================== *)
(** ** [execQuery] *)
(* ================================================================== *)

Lemma inputs_valid_inv (ext : Extern) (r : Hooks) :
  inputs_valid ext r = true ->
  (exists src, validateSource_result ext (source r) = Normal src)
  /\ blank_opt (ldfSubject r) = false
  /\ blank (context r) = false
  /\ (exists j, JSON_parse ext (context r) = inl j)
  /\ blank (ldfDataPath r) = false.
Proof.
  unfold inputs_valid. rewrite !andb_true_iff, !negb_true_iff.
  rewrite blank_opt_emptySubject, !blank_whitespaceOnly.
  intros ((((Hs & Hj) & Hc) & Hp) & Hd). repeat split; auto.
  - destruct (validateSource_result ext (source r)); try discriminate; eauto.
  - destruct (JSON_parse ext (context r)); try discriminate; eauto.
Qed.

(** With valid inputs, [execQuery] clears result and status and comes
    to its last [try] statement. *)
Lemma execQuery_reaches_try (ext : Extern) (r : Hooks) (w : World) :
  inputs_valid ext r = true ->
  execQuery ext r w
  = fn (try_finally (try_catch (execQuery_try ext r) execQuery_catch)
          (setResponsePending false))
       (snd (clearQueryResultAndStatus w)).
Proof.
  intros Hv. apply inputs_valid_inv in Hv.
  destruct Hv as ((src & Hs) & Hj & Hc & (j & Hp) & Hd).
  unfold execQuery. run. rewrite validateSource_eq, Hs, Hj, Hc, Hp, Hd.
  reflexivity.
Qed.

(** The step of [execQuery_try] that brings the query context up to
    date leaves in the subject-path slot the path named by
    [entryPath]. *)
Lemma refresh_step (ext : Extern) (r : Hooks) (w : World) (sp : Path) :
  entryPath ext r w = Some sp ->
  exists w1,
    when (truthy (ldfQryCtxStale r)) (refreshLdfQryCtx ext r) w
    = (Normal tt, w1)
    /\ subjectPath (gLdfQryCtx w1) = Some sp
    /\ (truthy (ldfQryCtxStale r) = true -> stale w1 = QC_VALID)
    /\ (truthy (ldfQryCtxStale r) = false -> w1 = w).
Proof.
  unfold entryPath, refreshLdfQryCtx.
  destruct (guard_any_stale (ldfQryCtxStale r)) as (-> & -> & ->).
  destruct (truthy (ldfQryCtxStale r)); run.
  - destruct (JSON_parse ext (context r)) as [j | e]; [| discriminate].
    intros E. inversion E; subst. run. eexists. repeat split.
    discriminate.
  - intros E. exists w. repeat split; auto. discriminate.
Qed.

Lemma execQuery_try_drain (ext : Extern) (r : Hooks) (w : World) (sp : Path) :
  entryPath ext r w = Some sp ->
  exists w1,
    when (truthy (ldfQryCtxStale r)) (refreshLdfQryCtx ext r) w
    = (Normal tt, w1)
    /\ (truthy (ldfQryCtxStale r) = true -> stale w1 = QC_VALID)
    /\ (truthy (ldfQryCtxStale r) = false -> w1 = w)
    /\ execQuery_try ext r w
       = (data <- forAwait (Path_resolve ext sp (ldfDataPath r))
                    (fun val data => ret (JsSet.add (toString val) data))
                    JsSet.empty ;;
          setQueryResult (Some (JsSet.spread data)) ;;
          return_) w1
    /\ subjectPath (gLdfQryCtx w1) = Some sp.
Proof.
  intros Hp. destruct (refresh_step ext r w sp Hp) as (w1 & Hr & Hsp & Hv & Hw).
  exists w1. repeat split; auto.
  unfold execQuery_try. unfold bind at 1. rewrite Hr.
  unfold bind at 1, gets. rewrite Hsp. reflexivity.
Qed.

(** The set filled by the loop of [execQuery], spread into an array. *)
Lemma collect_distinct (vs : list Proxy) :
  JsSet.spread
    (fold_left (fun data val => JsSet.add (toString val) data) vs JsSet.empty)
  = distinct (map toString vs).
Proof.
  unfold JsSet.spread, JsSet.empty.
  rewrite (fold_left_map (fun data x => JsSet.add x data) toString).
  rewrite fold_add_distinct. cbn [app]. unfold JsSet.has.
  generalize (distinct (map toString vs)) as l.
  induction l as [| x l IH]; cbn; [reflexivity | now f_equal].
Qed.

(** The run of [execQuery] on valid inputs whose producer ends. *)
Lemma execQuery_yields (ext : Extern) (w : World) (sp : Path)
  (vs : list Proxy) :
  inputs_valid ext (hooks w) = true ->
  entryPath ext (hooks w) w = Some sp ->
  Path_resolve ext sp (ldfDataPath (hooks w)) = yields vs ->
  exists w1,
    when (truthy (stale w)) (refreshLdfQryCtx ext (hooks w))
      (snd (clearQueryResultAndStatus w)) = (Normal tt, w1)
    /\ invoke (execQuery ext) w
       = (Normal tt,
          snd (setResponsePending false
                 (snd (setQueryResult
                         (Some (distinct (map toString vs))) w1)))).
Proof.
  intros Hv Hp Hy.
  assert (Hp' : entryPath ext (hooks w) (snd (clearQueryResultAndStatus w))
                = Some sp) by exact Hp.
  destruct (execQuery_try_drain ext _ _ sp Hp')
    as (w1 & Hr & _ & _ & Ht & _).
  exists w1. split; [exact Hr |].
  unfold invoke. rewrite execQuery_reaches_try by exact Hv.
  unfold fn, try_finally, try_catch. rewrite Ht.
  unfold bind at 1. rewrite Hy, forAwait_yields, collect_distinct.
  reflexivity.
Qed.

(** The run of [execQuery] on valid inputs whose producer rejects:
    the [catch] clause sets the status, unless [toString()] of the
    rejection throws, and what it throws then leaves [execQuery]. *)
Lemma execQuery_raises (ext : Extern) (w : World) (sp : Path)
  (vs : list Proxy) (t : Thrown) :
  inputs_valid ext (hooks w) = true ->
  entryPath ext (hooks w) w = Some sp ->
  Path_resolve ext sp (ldfDataPath (hooks w)) = yields_then_raise vs t ->
  exists w1,
    when (truthy (stale w)) (refreshLdfQryCtx ext (hooks w))
      (snd (clearQueryResultAndStatus w)) = (Normal tt, w1)
    /\ (truthy (stale w) = true -> stale w1 = QC_VALID)
    /\ (truthy (stale w) = false -> w1 = snd (clearQueryResultAndStatus w))
    /\ subjectPath (gLdfQryCtx w1) = Some sp
    /\ execQuery_try ext (hooks w) (snd (clearQueryResultAndStatus w))
       = (Throw t, w1)
    /\ invoke (execQuery ext) w
       = match Thrown_toString t with
         | inl text =>
             (Normal tt,
              snd (setResponsePending false
                     (snd (setStatus
                             (Some (str "Query execution failed: " ++ text))
                             w1))))
         | inr t' => (Throw t', snd (setResponsePending false w1))
         end.
Proof.
  intros Hv Hp Hy.
  assert (Hp' : entryPath ext (hooks w) (snd (clearQueryResultAndStatus w))
                = Some sp) by exact Hp.
  destruct (execQuery_try_drain ext _ _ sp Hp')
    as (w1 & Hr & Hs & Hw & Ht & Hsp).
  assert (Hthrow : execQuery_try ext (hooks w)
                     (snd (clearQueryResultAndStatus w)) = (Throw t, w1)).
  { rewrite Ht. unfold bind at 1.
    now rewrite Hy, forAwait_yields_then_raise. }
  exists w1. repeat (split; [assumption |]).
  unfold invoke. rewrite execQuery_reaches_try by exact Hv.
  unfold fn, try_finally, try_catch. rewrite Hthrow.
  unfold execQuery_catch, call_toString.
  destruct (Thrown_toString t); reflexivity.
Qed.

(** The refresh step of [execQuery] sets no hook but the staleness
    value. *)
Lemma when_refresh_hooks (ext : Extern) (r : Hooks) (w w1 : World) :
  when (truthy (ldfQryCtxStale r)) (refreshLdfQryCtx ext r) w
  = (Normal tt, w1) ->
  source (hooks w1) = source (hooks w)
  /\ context (hooks w1) = context (hooks w)
  /\ ldfSubject (hooks w1) = ldfSubject (hooks w)
  /\ ldfDataPath (hooks w1) = ldfDataPath (hooks w)
  /\ status (hooks w1) = status (hooks w)
  /\ queryResult (hooks w1) = queryResult (hooks w).
Proof.
  unfold when, refreshLdfQryCtx.
  destruct (guard_any_stale (ldfQryCtxStale r)) as (-> & -> & ->).
  destruct (truthy (ldfQryCtxStale r)); run.
  - destruct (JSON_parse ext (context r)); run; intros E;
      inversion E; subst; cbn; auto 10.
  - intros E; inversion E; subst; cbn; auto 10.
Qed.

(* ------------------------------------------------------------------ *)
(** *** C4 *)

(** C4. When the data path resolves to a producer that yields the
    values [vs] and ends, [execQuery] completes and sets the query
    result to the distinct string forms of [vs], each at the place of
    its first occurrence: a list without duplicates that has the same
    members as the string forms of [vs]. *)
Theorem C4_execQuery_collects_distinct
  (ext : Extern) (w : World) (sp : Path) (vs : list Proxy) :
  inputs_valid ext (hooks w) = true ->
  entryPath ext (hooks w) w = Some sp ->
  Path_resolve ext sp (ldfDataPath (hooks w)) = yields vs ->
  let res := invoke (execQuery ext) w in
  fst res = Normal tt
  /\ queryResult (hooks (snd res)) = Some (distinct (map toString vs))
  /\ status (hooks (snd res)) = None
  /\ NoDup (distinct (map toString vs))
  /\ (forall x, In x (distinct (map toString vs)) <-> In x (map toString vs)).
Proof.
  intros Hv Hp Hy.
  destruct (execQuery_yields ext w sp vs Hv Hp Hy) as (w1 & Hr & Hres).
  cbv zeta. rewrite Hres. cbn [fst snd].
  assert (Hst : status (hooks w1) = None).
  { apply when_refresh_hooks in Hr. destruct Hr as (_ & _ & _ & _ & Hst & _).
    rewrite Hst. reflexivity. }
  repeat split.
  - cbn. exact Hst.
  - apply distinct_NoDup.
  - apply distinct_In.
  - apply distinct_In.
Qed.

Lemma C4_execQuery_collects_distinct_witness :
  queryResult (hooks (snd (invoke
    (execQuery (mock (yields (proxies ["A"; "B"; "A"]%string)) Done Done))
    world_with_subject)))
  = Some [str "A"; str "B"]
  /\ queryResult (hooks (snd (invoke
       (execQuery (mock (yields (proxies ["Alice"; "Alice"]%string)) Done Done))
       world_with_subject)))
     = Some [str "Alice"].
Proof.
  split.
  - exact (proj1 (proj2
      (C4_execQuery_collects_distinct
         (mock (yields (proxies ["A"; "B"; "A"]%string)) Done Done)
         world_with_subject _ (proxies ["A"; "B"; "A"]%string)
         eq_refl eq_refl eq_refl))).
  - exact (proj1 (proj2
      (C4_execQuery_collects_distinct
         (mock (yields (proxies ["Alice"; "Alice"]%string)) Done Done)
         world_with_subject _ (proxies ["Alice"; "Alice"]%string)
         eq_refl eq_refl eq_refl))).
Defined.

(** With nothing stale, the last [try] block of [execQuery] constructs
    nothing and assigns no slot, however the producer behaves. *)
Lemma execQuery_try_valid_frame (ext : Extern) (r : Hooks) (w : World) :
  ldfQryCtxStale r = QC_VALID ->
  exists c w',
    execQuery_try ext r w = (c, w')
    /\ calls w' = calls w
    /\ gLdfQryCtx w' = gLdfQryCtx w
    /\ stale w' = stale w.
Proof.
  intros Hst. unfold execQuery_try. rewrite Hst.
  change (truthy QC_VALID) with false. unfold when.
  unfold bind at 1. cbn [ret]. unfold bind at 1, gets.
  destruct (subjectPath (gLdfQryCtx w)) as [sp |];
    [| do 2 eexists; split; [reflexivity | auto]].
  unfold bind at 1.
  pose proof (forAwait_local (fun val data => JsSet.add (toString val) data)
                (Path_resolve ext sp (ldfDataPath r)) JsSet.empty w) as Hl.
  destruct (forAwait _ _ _ w) as [c w2]. cbn [snd] in Hl. subst w2.
  destruct c; do 2 eexists; (split; [reflexivity | cbn; auto]).
Qed.

(** With nothing stale, [execQuery] constructs nothing and assigns no
    slot, and the staleness value stays as it is, however it
    completes. *)
Lemma execQuery_valid_frame (ext : Extern) (r : Hooks) (w : World) :
  ldfQryCtxStale r = QC_VALID ->
  exists c w',
    execQuery ext r w = (c, w')
    /\ calls w' = calls w
    /\ gLdfQryCtx w' = gLdfQryCtx w
    /\ stale w' = stale w.
Proof.
  intros Hst. unfold execQuery. run.
  rewrite validateSource_eq.
  destruct (validateSource_result_cases ext (source r)) as [-> | (m & ->)];
    [| run; do 2 eexists; split; [reflexivity | cbn; auto]].
  destruct (blank_opt (ldfSubject r));
    [do 2 eexists; split; [reflexivity | cbn; auto] |].
  destruct (blank (context r));
    [do 2 eexists; split; [reflexivity | cbn; auto] |].
  destruct (JSON_parse ext (context r));
    [| do 2 eexists; split; [reflexivity | cbn; auto]].
  destruct (blank (ldfDataPath r));
    [do 2 eexists; split; [reflexivity | cbn; auto] |].
  match goal with
  | |- context [execQuery_try ext r ?w0] =>
      destruct (execQuery_try_valid_frame ext r w0 Hst)
        as (c & w2 & -> & Hc & Hq & Hs)
  end.
  cbn [snd calls gLdfQryCtx] in Hc, Hq. unfold stale in Hs. cbn in Hs.
  destruct c as [[] | | t];
    [do 2 eexists; (split; [reflexivity | cbn; auto]) ..|].
  unfold execQuery_catch. run.
  destruct t as [e | | | mr [text | t']]; run;
    do 2 eexists; (split; [reflexivity | cbn; auto]).
Qed.

Lemma validateSource_result_throw (ext : Extern) (src : jsstring) (ex : Error) :
  validateSource_result ext src = Throw ex ->
  exists m, message ex = str "Invalid source URL: " ++ m.
Proof.
  unfold validateSource_result.
  destruct (JsString.whitespaceOnly src).
  - intros E. inversion E. eexists. reflexivity.
  - destruct (URL_parse ext (JsString.trim src)) as [u | e].
    + destruct (JsString.eqb (origin u) (str "null")); intros E;
        inversion E. eexists. reflexivity.
    + intros E. inversion E. eexists. reflexivity.
Qed.

Lemma validateSource_result_not_return (ext : Extern) (src : jsstring) :
  validateSource_result ext src <> Return.
Proof.
  unfold validateSource_result.
  destruct (JsString.whitespaceOnly src); [discriminate |].
  destruct (URL_parse ext (JsString.trim src)) as [u | e]; [| discriminate].
  destruct (JsString.eqb (origin u) (str "null")); discriminate.
Qed.

(* ------------------------------------------------------------------ *)
(** *** C5 *)

(** C5. When the subject is [null], empty or white space only,
    [execQuery] completes without a result and with a validation
    message as status (that of the subject, or that of the source when
    the source is invalid too); it constructs nothing, assigns no slot
    of the query context and leaves the staleness value as it was. *)
Theorem C5_execQuery_empty_subject (ext : Extern) (w : World) :
  emptySubject (ldfSubject (hooks w)) = true ->
  let res := invoke (execQuery ext) w in
  fst res = Normal tt
  /\ (exists msg,
        status (hooks (snd res)) = Some msg
        /\ (msg = str "Invalid subject URI: " ++ str "No subject selected."
            \/ exists m, msg = str "Invalid source URL: " ++ m))
  /\ queryResult (hooks (snd res)) = None
  /\ calls (snd res) = calls w
  /\ gLdfQryCtx (snd res) = gLdfQryCtx w
  /\ stale (snd res) = stale w.
Proof.
  intros He. rewrite <- blank_opt_emptySubject in He.
  cbv zeta. unfold invoke, execQuery. run.
  rewrite validateSource_eq, He.
  destruct (validateSource_result_cases ext (source (hooks w)))
    as [-> | (m & ->)]; cbn.
  - repeat split; auto. eexists. split; [reflexivity | now left].
  - repeat split; auto. eexists. split; [reflexivity | right; eauto].
Qed.

Lemma C5_execQuery_empty_subject_witness :
  let res := invoke (execQuery (mock Done Done Done)) initial_world in
  status (hooks (snd res))
  = Some (str "Invalid subject URI: No subject selected.")
  /\ calls (snd res) = []
  /\ gLdfQryCtx (snd res) = mkQryCtx None None None
  /\ stale (snd res) = QC_STALE_SOURCE_CHANGED.
Proof.
  pose proof (C5_execQuery_empty_subject (mock Done Done Done) initial_world
                eq_refl) as (_ & _ & _ & Hc & Hq & Hs).
  cbv zeta.
  split; [reflexivity | split; [exact Hc | split; [exact Hq | exact Hs]]].
Defined.

(* ------------------------------------------------------------------ *)
(** *** C9 *)

(** C9. When the producer of the resolved data path rejects, with
    whatever value, the [catch] clause of [execQuery] touches neither
    the staleness value nor the slots: they are those of the moment the
    [try] block was left, the staleness value being [QC_VALID] since
    the refresh, if one was due, had completed. A retry in the next
    render constructs nothing and keeps the slots. When [toString()]
    can be called on the value rejected with, as on every [Error]
    object, the call and the retry complete normally and the status is
    the message of the failure. *)
Theorem C9_failed_drain_keeps_staleness
  (ext : Extern) (w : World) (sp : Path) (vs : list Proxy) (t : Thrown) :
  inputs_valid ext (hooks w) = true ->
  entryPath ext (hooks w) w = Some sp ->
  Path_resolve ext sp (ldfDataPath (hooks w)) = yields_then_raise vs t ->
  let res := invoke (execQuery ext) w in
  let retry := invoke (execQuery ext) (snd res) in
  (forall text,
     Thrown_toString t = inl text ->
     fst res = Normal tt
     /\ status (hooks (snd res))
        = Some (str "Query execution failed: " ++ text)
     /\ fst retry = Normal tt)
  /\ (exists wf,
        execQuery_try ext (hooks w) (snd (clearQueryResultAndStatus w))
        = (Throw t, wf)
        /\ stale (snd res) = stale wf
        /\ gLdfQryCtx (snd res) = gLdfQryCtx wf
        /\ calls (snd res) = calls wf)
  /\ stale (snd res) = QC_VALID
  /\ source (hooks (snd res)) = source (hooks w)
  /\ context (hooks (snd res)) = context (hooks w)
  /\ ldfSubject (hooks (snd res)) = ldfSubject (hooks w)
  /\ calls (snd retry) = calls (snd res)
  /\ gLdfQryCtx (snd retry) = gLdfQryCtx (snd res)
  /\ stale (snd retry) = QC_VALID.
Proof.
  intros Hv Hp Hy.
  destruct (execQuery_raises ext w sp vs t Hv Hp Hy)
    as (w1 & Hr & Hs & Hw & Hsp & Hthrow & Hres).
  assert (Hvalid : stale w1 = QC_VALID).
  { destruct (truthy (stale w)) eqn:E; [now apply Hs |].
    rewrite (Hw eq_refl). apply truthy_false_iff in E. exact E. }
  apply when_refresh_hooks in Hr.
  destruct Hr as (Hsrc & Hctx & Hsub & Hdp & _).
  cbn in Hsrc, Hctx, Hsub, Hdp.
  cbv zeta.
  set (w2 := snd (invoke (execQuery ext) w)).
  assert (Hw2 : stale w2 = stale w1 /\ gLdfQryCtx w2 = gLdfQryCtx w1
                /\ calls w2 = calls w1
                /\ source (hooks w2) = source (hooks w1)
                /\ context (hooks w2) = context (hooks w1)
                /\ ldfSubject (hooks w2) = ldfSubject (hooks w1)
                /\ ldfDataPath (hooks w2) = ldfDataPath (hooks w1)).
  { subst w2. rewrite Hres. destruct (Thrown_toString t); cbn; auto 10. }
  destruct Hw2 as (Hst2 & Hq2 & Hc2 & Hsrc2 & Hctx2 & Hsub2 & Hdp2).
  assert (Hvalid2 : ldfQryCtxStale (hooks w2) = QC_VALID)
    by (unfold stale in Hst2; rewrite Hst2; exact Hvalid).
  destruct (execQuery_valid_frame ext (hooks w2) w2 Hvalid2)
    as (c3 & w3 & Hretry & Hc3 & Hq3 & Hs3).
  split.
  { intros text Htext.
    assert (Hv2 : inputs_valid ext (hooks w2) = true).
    { unfold inputs_valid in *.
      rewrite Hsrc2, Hctx2, Hsub2, Hdp2, Hsrc, Hctx, Hsub, Hdp. exact Hv. }
    assert (Hp2 : entryPath ext (hooks w2) w2 = Some sp).
    { unfold entryPath. rewrite Hvalid2.
      change (truthy QC_VALID) with false. cbv iota.
      rewrite Hq2. exact Hsp. }
    assert (Hy2 : Path_resolve ext sp (ldfDataPath (hooks w2))
                  = yields_then_raise vs t).
    { rewrite Hdp2, Hdp. exact Hy. }
    destruct (execQuery_raises ext w2 sp vs t Hv2 Hp2 Hy2)
      as (w4 & _ & _ & _ & _ & _ & Hres2).
    rewrite Htext in Hres2. rewrite Hres2.
    subst w2. rewrite Hres, Htext. cbn. auto. }
  unfold invoke at 1 2 3. rewrite Hretry. cbn [fst snd].
  split; [exists w1; auto |].
  rewrite Hst2, Hsrc2, Hctx2, Hsub2, Hsrc, Hctx, Hsub, Hc3, Hq3, Hs3.
  unfold stale in *. rewrite Hvalid2. auto 10.
Qed.

Lemma C9_failed_drain_keeps_staleness_witness :
  let ext := mock (yields_then_raise (proxies ["A"]%string) fetch_failed)
               Done Done in
  let res := invoke (execQuery ext) world_with_subject in
  status (hooks (snd res))
  = Some (str "Query execution failed: Error: Failed to fetch")
  /\ stale (snd res) = QC_VALID
  /\ calls (snd (invoke (execQuery ext) (snd res))) = calls (snd res).
Proof.
  intros ext res.
  pose proof (C9_failed_drain_keeps_staleness ext world_with_subject _
                (proxies ["A"]%string) fetch_failed eq_refl eq_refl eq_refl)
    as (Hok & _ & Hv & _ & _ & _ & Hc & _).
  destruct (Hok _ eq_refl) as (_ & Hst & _).
  split; [exact Hst | split; [exact Hv | exact Hc]].
Defined.

(* ------------------------------------------------------------------ *)
(** *** C10 *)

(** C10. [validateSource] throws for a source made of white space only
    (the empty source included), for a source whose trimmed text the
    URL parser rejects, and for a source whose trimmed text parses to a
    URL of origin ['null']; in the remaining case it returns the
    trimmed source. It changes nothing in any case. *)
Theorem C10_validateSource_cases (ext : Extern) (r : Hooks) (w : World) :
  (JsString.whitespaceOnly (source r) = true ->
   validateSource ext r w
   = (Throw (new_Error (str "Invalid source URL: " ++ str "Empty string")), w))
  /\ (forall e,
        JsString.whitespaceOnly (source r) = false ->
        URL_parse ext (JsString.trim (source r)) = inr e ->
        validateSource ext r w
        = (Throw (new_Error (str "Invalid source URL: " ++ message e)), w))
  /\ (forall u,
        JsString.whitespaceOnly (source r) = false ->
        URL_parse ext (JsString.trim (source r)) = inl u ->
        origin u = str "null" ->
        validateSource ext r w
        = (Throw (new_Error (str "Invalid source URL: "
                             ++ str "URL parsing error")), w))
  /\ (forall u,
        JsString.whitespaceOnly (source r) = false ->
        URL_parse ext (JsString.trim (source r)) = inl u ->
        origin u <> str "null" ->
        validateSource ext r w = (Normal (JsString.trim (source r)), w)).
Proof.
  rewrite validateSource_eq. unfold validateSource_result.
  repeat split.
  - intros ->. reflexivity.
  - intros e -> ->. reflexivity.
  - intros u -> -> ->. reflexivity.
  - intros u -> -> Hn.
    destruct (JsString.eqb (origin u) (str "null")) eqn:E; [| reflexivity].
    apply JsString_eqb_eq in E. contradiction.
Qed.

Lemma C10_validateSource_cases_witness :
  let ext := mock Done Done Done in
  let w := initial_world in
  validateSource ext (hooks_with_source "  ") w
  = (Throw (new_Error (str "Invalid source URL: Empty string")), w)
  /\ validateSource ext (hooks_with_source "no url") w
     = (Throw (new_Error (str "Invalid source URL: Invalid URL")), w)
  /\ validateSource ext (hooks_with_source "urn:isbn:0451450523") w
     = (Throw (new_Error (str "Invalid source URL: URL parsing error")), w)
  /\ validateSource ext (hooks_with_source " https://example.org/profile ") w
     = (Normal (str "https://example.org/profile"), w).
Proof.
  intros ext w. split; [| split; [| split]].
  - exact (proj1 (C10_validateSource_cases ext (hooks_with_source "  ") w)
             eq_refl).
  - exact (proj1 (proj2
             (C10_validateSource_cases ext (hooks_with_source "no url") w))
             _ eq_refl eq_refl).
  - exact (proj1 (proj2 (proj2
             (C10_validateSource_cases ext
                (hooks_with_source "urn:isbn:0451450523") w)))
             _ eq_refl eq_refl eq_refl).
  - refine (proj2 (proj2 (proj2
             (C10_validateSource_cases ext
                (hooks_with_source " https://example.org/profile ") w)))
             _ eq_refl eq_refl _).
    cbv. discriminate.
Defined.

(* ================================================================== *)
(** ** The enumerators *)
(* ================================================================== *)

(** The loop of [getSourceSubjects] over a producer that ends appends
    to [grSubjects] the string forms that start with [http], and
    touches nothing else. *)
Lemma forAwait_subjects (ids : list Proxy) (w : World) :
  exists w',
    forAwait (yields ids) getSourceSubjects_each tt w = (Normal tt, w')
    /\ grSubjects w'
       = grSubjects w
         ++ filter (JsString.startsWith (str "http")) (map toString ids)
    /\ hooks w' = hooks w
    /\ gLdfQryCtx w' = gLdfQryCtx w
    /\ calls w' = calls w.
Proof.
  revert w. induction ids as [| v ids IH]; intros w; cbn [yields forAwait].
  - exists w. rewrite app_nil_r. auto.
  - unfold bind, getSourceSubjects_each at 1, when. cbn [map filter].
    destruct (JsString.startsWith (str "http") (toString v)).
    + cbn [modify].
      destruct (IH (with_grSubjects (fun l => l ++ [toString v]) w))
        as (w' & -> & Hg & Hh & Hq & Hc).
      exists w'. cbn in Hg. rewrite <- app_assoc in Hg. auto.
    + cbn [ret]. apply IH.
Qed.

(** The loop of [getSubjectProperties] over a producer that ends
    appends every string form to [grSubjectProperties]. *)
Lemma forAwait_properties (ids : list Proxy) (w : World) :
  exists w',
    forAwait (yields ids) getSubjectProperties_each tt w = (Normal tt, w')
    /\ grSubjectProperties w' = grSubjectProperties w ++ map toString ids
    /\ hooks w' = hooks w
    /\ gLdfQryCtx w' = gLdfQryCtx w
    /\ calls w' = calls w.
Proof.
  revert w. induction ids as [| v ids IH]; intros w; cbn [yields forAwait].
  - exists w. rewrite app_nil_r. auto.
  - unfold bind, getSubjectProperties_each at 1. cbn [map modify].
    destruct (IH (with_grSubjectProperties (fun l => l ++ [toString v]) w))
      as (w' & -> & Hg & Hh & Hq & Hc).
    exists w'. cbn in Hg. rewrite <- app_assoc in Hg. auto.
Qed.

(** The run of [getSourceSubjects] on a valid source whose subjects
    producer ends. *)
Lemma getSourceSubjects_yields (ext : Extern) (w : World) (src : jsstring)
  (ids : list Proxy) :
  validateSource_result ext (source (hooks w)) = Normal src ->
  Path_subjects ext (sourcePath (hooks w) w src) = yields ids ->
  exists w',
    invoke (getSourceSubjects ext) w = (Normal tt, w')
    /\ grSubjects w'
       = filter (JsString.startsWith (str "http")) (map toString ids)
    /\ ldfSubject (hooks w')
       = first_or (filter (JsString.startsWith (str "http"))
                     (map toString ids))
           (ldfSubject (hooks w))
    /\ status (hooks w') = None.
Proof.
  intros Hsrc Hy. unfold sourcePath in Hy.
  unfold invoke, getSourceSubjects, getSourceSubjects_try. run.
  rewrite validateSource_eq, Hsrc.
  destruct (truthy (ldfQryCtxStale (hooks w))) eqn:E.
  - unfold refreshLdfQryCtxEngine.
    destruct (guard_any_stale (ldfQryCtxStale (hooks w))) as [-> _].
    rewrite E. run. rewrite Hy.
    match goal with
    | |- context [forAwait (yields ids) getSourceSubjects_each tt ?w0] =>
        destruct (forAwait_subjects ids w0) as (w' & -> & Hg & Hh & _)
    end.
    cbn [grSubjects app] in Hg. cbn [hooks] in Hh. rewrite Hg.
    destruct (filter _ _); eexists;
      (split; [reflexivity | cbn; rewrite ?Hh; cbn; auto]).
  - run. rewrite Hy.
    match goal with
    | |- context [forAwait (yields ids) getSourceSubjects_each tt ?w0] =>
        destruct (forAwait_subjects ids w0) as (w' & -> & Hg & Hh & _)
    end.
    cbn [grSubjects app] in Hg. cbn [hooks] in Hh. rewrite Hg.
    destruct (filter _ _); eexists;
      (split; [reflexivity | cbn; rewrite ?Hh; cbn; auto]).
Qed.

(** The run of [getSubjectProperties] with a subject and an engine,
    when the properties producer ends. *)
Lemma getSubjectProperties_yields (ext : Extern) (w : World)
  (engine : ComunicaEngine) (ids : list Proxy) :
  emptySubject (ldfSubject (hooks w)) = false ->
  queryEngine (gLdfQryCtx w) = Some engine ->
  Path_properties ext (subjectPropertiesPath (hooks w) engine) = yields ids ->
  exists w',
    invoke (getSubjectProperties ext) w = (Normal tt, w')
    /\ grSubjectProperties w' = map toString ids
    /\ ldfProperty (hooks w')
       = first_or (map toString ids) (ldfProperty (hooks w)).
Proof.
  intros Hs He Hy. unfold subjectPropertiesPath in Hy.
  rewrite <- blank_opt_emptySubject in Hs.
  unfold invoke, getSubjectProperties, getSubjectProperties_try. run.
  rewrite Hs. run. rewrite He. run. rewrite Hy.
  match goal with
  | |- context [forAwait (yields ids) getSubjectProperties_each tt ?w0] =>
      destruct (forAwait_properties ids w0) as (w' & -> & Hg & Hh & _)
  end.
  cbn [grSubjectProperties app] in Hg. cbn [hooks] in Hh. rewrite Hg.
  destruct (map toString ids); eexists;
    (split; [reflexivity | cbn; rewrite ?Hh; cbn; auto]).
Qed.

Lemma getSourceSubjects_unfold (ext : Extern) (r : Hooks) (w : World) :
  getSourceSubjects ext r w
  = fn (try_finally
          (try_catch (getSourceSubjects_try ext r) getSourceSubjects_catch)
          (setResponsePending false))
       (subjects_try_start w).
Proof. reflexivity. Qed.

(** An exception leaves [getSourceSubjects] only when its [try] block
    throws a value whose [message] cannot be read. *)
Lemma getSourceSubjects_completes (ext : Extern) (r : Hooks) (w : World) :
  fst (getSourceSubjects ext r w) = Normal tt
  \/ exists t t' w1,
       getSourceSubjects_try ext r (subjects_try_start w) = (Throw t, w1)
       /\ Thrown_message t = inr t'
       /\ fst (getSourceSubjects ext r w) = Throw t'.
Proof.
  rewrite getSourceSubjects_unfold. unfold fn, try_finally, try_catch.
  destruct (getSourceSubjects_try ext r (subjects_try_start w))
    as [[[] | | t] w1]; [now left | now left |].
  unfold getSourceSubjects_catch, get_message.
  destruct (Thrown_message t) as [m | t'] eqn:E; [now left |].
  right. exists t, t', w1. auto.
Qed.

Lemma startsWith_app (p q s : jsstring) :
  JsString.startsWith (p ++ q) s = true -> JsString.startsWith p s = true.
Proof.
  revert s. induction p as [| x p IH]; intros s; cbn; [reflexivity |].
  destruct s as [| y s]; [discriminate |].
  rewrite !andb_true_iff. intros [Hx Hp]. split; [exact Hx | now apply IH].
Qed.

(** An identifier with an [http:] or [https:] scheme starts with
    [http]. *)
Lemma beginsWithHttpScheme_startsWith (s : jsstring) :
  beginsWithHttpScheme s = true ->
  JsString.startsWith (str "http") s = true.
Proof.
  unfold beginsWithHttpScheme. rewrite orb_true_iff. intros [H | H].
  - apply (startsWith_app (str "http") (str ":")). exact H.
  - apply (startsWith_app (str "http") (str "s:")). exact H.
Qed.

(* ------------------------------------------------------------------ *)
(** *** C6 *)

(** C6, as stated, fails: not every failure of the enumeration is
    turned into a status. When the subjects producer rejects with
    [undefined], reading [ex.message] in the [catch] clause throws
    before any of its three setters runs: from a render with a subject
    selected and the staleness value 1, the call ends with that
    [TypeError], the staleness value is 5, as [refreshLdfQryCtxEngine]
    left it, and the subject is still selected. *)
Lemma C6_rejection_without_message_escapes :
  ~ (forall (ext : Extern) (w wf : World) (t : Thrown),
       getSourceSubjects_try ext (hooks w) (subjects_try_start w)
       = (Throw t, wf) ->
       let res := invoke (getSourceSubjects ext) w in
       fst res = Normal tt
       /\ stale (snd res) = QC_STALE_SOURCE_CHANGED
       /\ ldfSubject (hooks (snd res)) = None).
Proof.
  intros H.
  specialize (H (mock Done
                   (yields_then_raise (proxies ["https://x/1"]%string)
                      ThrownUndefined)
                   Done)
                world_with_subject _ ThrownUndefined eq_refl).
  destruct H as (Hn & _). vm_compute in Hn. discriminate.
Qed.

(** C6, amended. When the [try] block of [getSourceSubjects] throws a
    value whose [message] can be read, as it can of every [Error]
    object, wherever the error arises, the call still completes
    normally; it leaves the staleness value at
    [QC_STALE_SOURCE_CHANGED], so the source flag is set, the selected
    subject [null], and the message read as status. *)
Theorem C6_getSourceSubjects_failure
  (ext : Extern) (w wf : World) (t : Thrown) (m : JsValue) :
  getSourceSubjects_try ext (hooks w) (subjects_try_start w) = (Throw t, wf) ->
  Thrown_message t = inl m ->
  let res := invoke (getSourceSubjects ext) w in
  fst res = Normal tt
  /\ stale (snd res) = QC_STALE_SOURCE_CHANGED
  /\ sourceChanged (stale (snd res)) = true
  /\ ldfSubject (hooks (snd res)) = None
  /\ status (hooks (snd res)) = JsValue_status m.
Proof.
  intros Hthrow Hm. cbv zeta. unfold invoke.
  rewrite getSourceSubjects_unfold. unfold fn, try_finally, try_catch.
  rewrite Hthrow. unfold getSourceSubjects_catch, get_message.
  rewrite Hm. cbn. auto.
Qed.

Lemma C6_getSourceSubjects_failure_witness :
  let ext := mock Done
               (yields_then_raise (proxies ["https://x/1"]%string) fetch_failed)
               Done in
  let res := invoke (getSourceSubjects ext) world_with_subject in
  stale world_with_subject = QC_STALE_SUBJECT_CHANGED
  /\ fst res = Normal tt
  /\ stale (snd res) = QC_STALE_SOURCE_CHANGED
  /\ ldfSubject (hooks (snd res)) = None
  /\ status (hooks (snd res)) = Some (str "Failed to fetch").
Proof.
  intros ext res.
  pose proof (C6_getSourceSubjects_failure ext world_with_subject _
                fetch_failed _ eq_refl eq_refl) as (Hn & Hs & _ & Hsub & Hst).
  split; [reflexivity |].
  split; [exact Hn | split; [exact Hs | split; [exact Hsub | exact Hst]]].
Defined.

(* ------------------------------------------------------------------ *)
(** *** C7 *)

(** C7, as stated, fails: the subjects kept are not exactly those that
    begin with an [http:] or [https:] scheme. Of the identifiers
    [https://x/1], [_:b0] and [httpx://x/3], the last has neither
    scheme and is kept all the same. *)
Lemma C7_keeps_identifier_without_http_scheme :
  ~ (forall (ext : Extern) (w : World) (src : jsstring) (ids : list Proxy),
       validateSource_result ext (source (hooks w)) = Normal src ->
       Path_subjects ext (sourcePath (hooks w) w src) = yields ids ->
       grSubjects (snd (invoke (getSourceSubjects ext) w))
       = filter beginsWithHttpScheme (map toString ids)).
Proof.
  intros H.
  specialize (H (mock Done
                   (yields (proxies ["https://x/1"; "_:b0"; "httpx://x/3"]%string))
                   Done)
                initial_world _ _ eq_refl eq_refl).
  vm_compute in H. discriminate.
Qed.

(** C7, amended. Subject enumeration keeps, in order, exactly the
    identifiers whose string form starts with the four characters
    [http], among them every identifier that begins with an [http:] or
    [https:] scheme, and discards the rest; property enumeration keeps
    every identifier, in order. *)
Theorem C7_enumeration_keeps_http_prefix
  (ext : Extern) (w wp : World) (src : jsstring) (engine : ComunicaEngine)
  (ids pids : list Proxy) :
  validateSource_result ext (source (hooks w)) = Normal src ->
  Path_subjects ext (sourcePath (hooks w) w src) = yields ids ->
  emptySubject (ldfSubject (hooks wp)) = false ->
  queryEngine (gLdfQryCtx wp) = Some engine ->
  Path_properties ext (subjectPropertiesPath (hooks wp) engine) = yields pids ->
  let subjects := grSubjects (snd (invoke (getSourceSubjects ext) w)) in
  let properties :=
    grSubjectProperties (snd (invoke (getSubjectProperties ext) wp)) in
  subjects = filter (JsString.startsWith (str "http")) (map toString ids)
  /\ (forall x, In x (map toString ids) ->
                beginsWithHttpScheme x = true -> In x subjects)
  /\ properties = map toString pids.
Proof.
  intros Hsrc Hy Hs He Hp.
  destruct (getSourceSubjects_yields ext w src ids Hsrc Hy)
    as (w1 & -> & Hg & _).
  destruct (getSubjectProperties_yields ext wp engine pids Hs He Hp)
    as (w2 & -> & Hgp & _).
  cbv zeta. cbn [snd]. rewrite Hg, Hgp. repeat split.
  intros x Hin Hx. apply filter_In. split; [exact Hin |].
  now apply beginsWithHttpScheme_startsWith.
Qed.

Lemma C7_enumeration_keeps_http_prefix_witness :
  let ext := mock Done
               (yields (proxies ["https://x/1"; "_:b0"; "https://x/2"]%string))
               (yields (proxies ["http://xmlns.com/foaf/0.1/name"; "_:b1"]%string))
  in
  let wp := snd (invoke (getSourceSubjects ext) initial_world) in
  grSubjects (snd (invoke (getSourceSubjects ext) initial_world))
  = [str "https://x/1"; str "https://x/2"]
  /\ grSubjectProperties (snd (invoke (getSubjectProperties ext) wp))
     = [str "http://xmlns.com/foaf/0.1/name"; str "_:b1"].
Proof.
  intros ext wp.
  pose proof (C7_enumeration_keeps_http_prefix ext initial_world wp _ _
                (proxies ["https://x/1"; "_:b0"; "https://x/2"]%string)
                (proxies ["http://xmlns.com/foaf/0.1/name"; "_:b1"]%string)
                eq_refl eq_refl eq_refl eq_refl eq_refl) as (Hs & _ & Hp).
  split; [exact Hs | exact Hp].
Defined.

(* ================================================================== *)
(** ** Further properties: the refresh and [execQuery] *)
(* ================================================================== *)

(** Every producer is a sequence of values followed by its end or by
    a rejection. *)
Lemma producer_shape (p : Producer) :
  match rejection p with
  | None => p = yields (produced p)
  | Some e => p = yields_then_raise (produced p) e
  end.
Proof.
  induction p as [| v rest IH | e]; cbn; auto.
  destruct (rejection rest); cbn; now f_equal.
Qed.

(** The run of [refreshLdfQryCtx] for a staleness value that is not
    zero, in full. *)
Lemma refreshLdfQryCtx_stale_run (ext : Extern) (r : Hooks) (w : World)
  (contextObj : Json) :
  ldfQryCtxStale r <> 0%Z ->
  JSON_parse ext (context r) = inl contextObj ->
  refreshLdfQryCtx ext r w
  = (Normal tt,
     snd (setLdfQryCtxStale QC_VALID
            {| hooks := hooks w;
               gLdfQryCtx := rebuilt_chain r contextObj;
               grSubjects := grSubjects w;
               grSubjectProperties := grSubjectProperties w;
               calls := calls w ++ rebuild_calls r contextObj |})).
Proof.
  intros Hnz Hj. unfold refreshLdfQryCtx.
  destruct (guard_any_stale (ldfQryCtxStale r)) as (-> & -> & ->).
  apply truthy_true_iff in Hnz. rewrite Hnz. run_goal. rewrite Hj.
  run_goal. unfold rebuilt_chain, rebuild_calls. cbn.
  rewrite <- !app_assoc. reflexivity.
Qed.

(** With an input that fails its validation, [execQuery] clears the
    result, sets a status and does nothing else. *)
Lemma execQuery_invalid_run (ext : Extern) (w : World) :
  inputs_valid ext (hooks w) = false ->
  exists msg,
    invoke (execQuery ext) w
    = (Normal tt, snd (setStatus (Some msg) (snd (clearQueryResultAndStatus w)))).
Proof.
  unfold inputs_valid.
  rewrite <- blank_opt_emptySubject, <- !blank_whitespaceOnly.
  intros H. unfold invoke, execQuery. run_goal. rewrite validateSource_eq.
  revert H.
  destruct (validateSource_result_cases ext (source (hooks w)))
    as [-> | (m & ->)]; intros H; [| run_goal; eexists; reflexivity].
  destruct (blank_opt (ldfSubject (hooks w))); [eexists; reflexivity |].
  destruct (blank (context (hooks w))); [eexists; reflexivity |].
  destruct (JSON_parse ext (context (hooks w))); [| eexists; reflexivity].
  destruct (blank (ldfDataPath (hooks w))); [eexists; reflexivity |].
  discriminate.
Qed.

(** A loop that only updates its own state yields the fold of its
    body over the values produced, or the rejection. *)
Lemma forAwait_pure {S} (f : Proxy -> S -> S) (p : Producer) (s : S)
  (w : World) :
  forAwait p (fun v d => ret (f v d)) s w
  = (match rejection p with
     | None => Normal (fold_left (fun d v => f v d) (produced p) s)
     | Some e => Throw e
     end, w).
Proof.
  pose proof (producer_shape p) as Hp.
  destruct (rejection p) as [e |]; rewrite Hp at 1.
  - apply forAwait_yields_then_raise.
  - apply forAwait_yields.
Qed.

(** With valid inputs, the run of [execQuery] in full: the refresh if
    anything is stale, then a result, a status, or the error of a
    [toString()] that fails in the [catch] clause, then the end of the
    pending state. *)
Lemma execQuery_valid_run (ext : Extern) (w : World) :
  inputs_valid ext (hooks w) = true ->
  exists contextObj,
    JSON_parse ext (context (hooks w)) = inl contextObj
    /\ let w1 := refreshed w contextObj in
       invoke (execQuery ext) w
       = match drained ext (ldfDataPath (hooks w))
                 (subjectPath (gLdfQryCtx w1)) with
         | inl l =>
             (Normal tt,
              snd (setResponsePending false
                     (snd (setQueryResult (Some l) w1))))
         | inr t =>
             match Thrown_toString t with
             | inl text =>
                 (Normal tt,
                  snd (setResponsePending false
                         (snd (setStatus
                                 (Some (str "Query execution failed: "
                                        ++ text)) w1))))
             | inr t' => (Throw t', snd (setResponsePending false w1))
             end
         end.
Proof.
  intros Hv. destruct (inputs_valid_inv ext (hooks w) Hv)
    as (_ & _ & _ & (j & Hj) & _).
  exists j. split; [exact Hj |]. intros w1.
  unfold invoke. rewrite execQuery_reaches_try by exact Hv.
  assert (Hrefresh :
    when (truthy (ldfQryCtxStale (hooks w))) (refreshLdfQryCtx ext (hooks w))
      (snd (clearQueryResultAndStatus w)) = (Normal tt, w1)).
  { subst w1. unfold refreshed, when, stale.
    destruct (truthy (ldfQryCtxStale (hooks w))) eqn:E; [| reflexivity].
    apply truthy_true_iff in E.
    rewrite (refreshLdfQryCtx_stale_run ext (hooks w) _ j E Hj).
    reflexivity. }
  unfold fn, try_finally, try_catch, execQuery_try.
  unfold bind at 1. rewrite Hrefresh.
  unfold bind at 1, gets. unfold drained, execQuery_catch, call_toString.
  destruct (subjectPath (gLdfQryCtx w1)) as [sp |]; [| reflexivity].
  unfold bind at 1. rewrite forAwait_pure.
  destruct (rejection (Path_resolve ext sp (ldfDataPath (hooks w))))
    as [t |].
  - destruct (Thrown_toString t); reflexivity.
  - rewrite collect_distinct. reflexivity.
Qed.

(** The same run, without the detail of the drain. *)
Lemma execQuery_valid_shape (ext : Extern) (w : World) :
  inputs_valid ext (hooks w) = true ->
  exists contextObj w2 c,
    JSON_parse ext (context (hooks w)) = inl contextObj
    /\ invoke (execQuery ext) w = (c, snd (setResponsePending false w2))
    /\ ((c = Normal tt
         /\ exists l, w2 = snd (setQueryResult (Some l) (refreshed w contextObj)))
        \/ (c = Normal tt
            /\ exists msg,
                 w2 = snd (setStatus (Some msg) (refreshed w contextObj)))
        \/ (w2 = refreshed w contextObj
            /\ exists t t',
                 drained ext (ldfDataPath (hooks w))
                   (subjectPath (gLdfQryCtx (refreshed w contextObj)))
                 = inr t
                 /\ Thrown_toString t = inr t'
                 /\ c = Throw t')).
Proof.
  intros Hv. destruct (execQuery_valid_run ext w Hv) as (j & Hj & Hrun).
  cbv zeta in Hrun. revert Hrun.
  destruct (drained ext _ _) as [l | t] eqn:Hd.
  - intros Hrun. exists j. do 2 eexists.
    split; [exact Hj | split; [exact Hrun |]]. left. eauto.
  - destruct (Thrown_toString t) as [text | t'] eqn:Ht; intros Hrun;
      exists j; do 2 eexists; (split; [exact Hj | split; [exact Hrun |]]).
    + right. left. eauto.
    + right. right. split; [reflexivity |]. exists t, t'. auto.
Qed.

(* ------------------------------------------------------------------ *)
(** *** X1 *)

(** X1. For every staleness value that is not zero, that of a subject
    change alone included, and a context that parses,
    [refreshLdfQryCtx] constructs the engine, the path factory and the
    subject path, in this order and each on the one before, from the
    source, context and subject of the render; it assigns the three
    slots and sets the staleness value to [QC_VALID]. *)
Theorem X1_refresh_rebuilds_whole_chain
  (ext : Extern) (r : Hooks) (w : World) (contextObj : Json) :
  ldfQryCtxStale r <> 0%Z ->
  JSON_parse ext (context r) = inl contextObj ->
  let res := refreshLdfQryCtx ext r w in
  fst res = Normal tt
  /\ gLdfQryCtx (snd res) = rebuilt_chain r contextObj
  /\ calls (snd res) = calls w ++ rebuild_calls r contextObj
  /\ stale (snd res) = QC_VALID.
Proof.
  intros Hnz Hj. cbv zeta.
  rewrite (refreshLdfQryCtx_stale_run ext r w contextObj Hnz Hj).
  cbn. auto.
Qed.

Lemma X1_refresh_rebuilds_whole_chain_witness :
  let ext := mock Done Done Done in
  let res := invoke (refreshLdfQryCtx ext) world_with_subject in
  stale world_with_subject = QC_STALE_SUBJECT_CHANGED
  /\ calls (snd res)
     = rebuild_calls (hooks world_with_subject) (JObject [])
  /\ stale (snd res) = QC_VALID.
Proof.
  intros ext res.
  assert (Hnz : ldfQryCtxStale (hooks world_with_subject) <> 0%Z)
    by (cbv; discriminate).
  pose proof (X1_refresh_rebuilds_whole_chain ext (hooks world_with_subject)
                world_with_subject (JObject []) Hnz eq_refl)
    as (_ & _ & Hc & Hs).
  split; [reflexivity | split; [exact Hc | exact Hs]].
Defined.

(* ------------------------------------------------------------------ *)
(** *** X2 *)

(** X2. However [execQuery] ends, it changes neither the source, the
    context or the data path, nor the selected subject and property,
    nor the two option lists. It completes normally in every case but
    one: with valid inputs, when the drain fails with a value on which
    [toString()] throws ([undefined] or [null] for one), what that call
    throws leaves [execQuery] from its [catch] clause. *)
Theorem X2_execQuery_completes (ext : Extern) (w : World) :
  exists c w',
    invoke (execQuery ext) w = (c, w')
    /\ same_inputs w w'
    /\ same_selection w w'
    /\ (c = Normal tt
        \/ exists contextObj t t',
             inputs_valid ext (hooks w) = true
             /\ drained ext (ldfDataPath (hooks w))
                  (subjectPath (gLdfQryCtx (refreshed w contextObj)))
                = inr t
             /\ Thrown_toString t = inr t'
             /\ c = Throw t').
Proof.
  destruct (inputs_valid ext (hooks w)) eqn:Hv.
  - destruct (execQuery_valid_shape ext w Hv)
      as (j & w2 & c & _ & -> &
          [(-> & l & ->) | [(-> & msg & ->) | (-> & t & t' & Hd & Ht & ->)]]);
      (do 2 eexists; split; [reflexivity |]);
      (split; [| split]);
      try solve [unfold refreshed, same_inputs, same_selection;
                 destruct (truthy (stale w)); cbn; auto 10];
      try solve [now left].
    right. exists j, t, t'. auto.
  - destruct (execQuery_invalid_run ext w Hv) as (msg & ->).
    do 2 eexists. split; [reflexivity |].
    unfold same_inputs, same_selection. cbn. auto 10.
Qed.

(* ------------------------------------------------------------------ *)
(** *** X3 *)

(** X3. [execQuery] rebuilds all of the chain or none of it. With
    valid inputs and a staleness value that is not zero it leaves the
    three slots rebuilt from the source, context and subject of the
    render, three constructions more in the log and the staleness value
    [QC_VALID]; otherwise (an input that fails its validation, or
    nothing stale) the slots, the log and the staleness value stay as
    they are. *)
Theorem X3_execQuery_rebuilds_all_or_nothing (ext : Extern) (w : World) :
  let w' := snd (invoke (execQuery ext) w) in
  if inputs_valid ext (hooks w) && truthy (stale w)
  then exists contextObj,
         JSON_parse ext (context (hooks w)) = inl contextObj
         /\ gLdfQryCtx w' = rebuilt_chain (hooks w) contextObj
         /\ calls w' = calls w ++ rebuild_calls (hooks w) contextObj
         /\ stale w' = QC_VALID
  else same_chain w w'.
Proof.
  cbv zeta. destruct (inputs_valid ext (hooks w)) eqn:Hv; cbn [andb].
  - destruct (execQuery_valid_shape ext w Hv)
      as (j & w2 & c & Hj & -> &
          [(_ & l & ->) | [(_ & msg & ->) | (-> & _)]]);
      unfold refreshed, same_chain;
      (destruct (truthy (stale w)); [exists j | ]); cbn; auto.
  - destruct (execQuery_invalid_run ext w Hv) as (msg & ->).
    unfold same_chain. cbn. auto.
Qed.

(* ------------------------------------------------------------------ *)
(** *** X4 *)

(** X4. [execQuery] never ends with both a result and a status. When
    it completes normally it has exactly one of them, a status when an
    input fails its validation; it has neither only when an exception
    leaves it from the [catch] clause. With valid inputs the pending
    state is ended in every case, that one included; with an input
    that fails its validation it is not touched. *)
Theorem X4_execQuery_result_or_status (ext : Extern) (w : World) :
  let res := invoke (execQuery ext) w in
  let w' := snd res in
  ((exists l, queryResult (hooks w') = Some l /\ status (hooks w') = None
              /\ fst res = Normal tt)
   \/ (exists msg, queryResult (hooks w') = None
                   /\ status (hooks w') = Some msg
                   /\ fst res = Normal tt)
   \/ (exists t', queryResult (hooks w') = None
                  /\ status (hooks w') = None
                  /\ fst res = Throw t'))
  /\ (if inputs_valid ext (hooks w)
      then responsePending (hooks w') = false
      else queryResult (hooks w') = None
           /\ responsePending (hooks w') = responsePending (hooks w)
           /\ fst res = Normal tt).
Proof.
  cbv zeta. destruct (inputs_valid ext (hooks w)) eqn:Hv.
  - destruct (execQuery_valid_shape ext w Hv)
      as (j & w2 & c & Hj & -> &
          [(-> & l & ->) | [(-> & msg & ->) | (-> & t & t' & _ & _ & ->)]]);
      unfold refreshed; destruct (truthy (stale w)); cbn;
      (split; [| reflexivity]); eauto 10.
  - destruct (execQuery_invalid_run ext w Hv) as (msg & ->).
    cbn. split; [right; left; eauto | auto].
Qed.

(* ================================================================== *)
(** ** Further properties: the enumerators *)
(* ================================================================== *)

(** The loop of [getSourceSubjects] over any producer. *)
Lemma forAwait_subjects_any (p : Producer) (w : World) :
  exists w',
    forAwait p getSourceSubjects_each tt w
    = (match rejection p with
       | None => Normal tt
       | Some e => Throw e
       end, w')
    /\ grSubjects w' = grSubjects w ++ kept_subjects p
    /\ hooks w' = hooks w
    /\ gLdfQryCtx w' = gLdfQryCtx w
    /\ calls w' = calls w
    /\ grSubjectProperties w' = grSubjectProperties w.
Proof.
  unfold kept_subjects. revert w.
  induction p as [| v rest IH | e]; intros w; cbn [forAwait rejection produced].
  - exists w. cbn. rewrite app_nil_r. auto 10.
  - unfold bind, getSourceSubjects_each at 1, when. cbn [map filter].
    destruct (JsString.startsWith (str "http") (toString v)).
    + cbn [modify].
      destruct (IH (with_grSubjects (fun l => l ++ [toString v]) w))
        as (w' & -> & Hg & Hh & Hq & Hc & Hp).
      exists w'. cbn in Hg. rewrite <- app_assoc in Hg. auto 10.
    + cbn [ret]. apply IH.
  - exists w. cbn. rewrite app_nil_r. auto 10.
Qed.

(** The loop of [getSubjectProperties] over any producer. *)
Lemma forAwait_properties_any (p : Producer) (w : World) :
  exists w',
    forAwait p getSubjectProperties_each tt w
    = (match rejection p with
       | None => Normal tt
       | Some e => Throw e
       end, w')
    /\ grSubjectProperties w'
       = grSubjectProperties w ++ map toString (produced p)
    /\ hooks w' = hooks w
    /\ gLdfQryCtx w' = gLdfQryCtx w
    /\ calls w' = calls w
    /\ grSubjects w' = grSubjects w.
Proof.
  revert w.
  induction p as [| v rest IH | e]; intros w; cbn [forAwait rejection produced].
  - exists w. cbn. rewrite app_nil_r. auto 10.
  - unfold bind, getSubjectProperties_each at 1. cbn [map modify].
    destruct (IH (with_grSubjectProperties (fun l => l ++ [toString v]) w))
      as (w' & -> & Hg & Hh & Hq & Hc & Hp).
    exists w'. cbn in Hg. rewrite <- app_assoc in Hg. auto 10.
  - exists w. cbn. rewrite app_nil_r. auto 10.
Qed.

(** The run of [getSourceSubjects], in full. *)
Lemma getSourceSubjects_run (ext : Extern) (w : World) :
  exists c w',
    invoke (getSourceSubjects ext) w = (c, w')
    /\ responsePending (hooks w') = false
    /\ queryResult (hooks w') = None
    /\ pathFactory (gLdfQryCtx w') = pathFactory (gLdfQryCtx w)
    /\ subjectPath (gLdfQryCtx w') = subjectPath (gLdfQryCtx w)
    /\ same_inputs w w'
    /\ ldfProperty (hooks w') = ldfProperty (hooks w)
    /\ grSubjectProperties w' = grSubjectProperties w
    /\ match validateSource_result ext (source (hooks w)) with
       | Normal src =>
           let engine :=
             if truthy (stale w)
             then Some (new_ComunicaEngine (source (hooks w)))
             else queryEngine (gLdfQryCtx w) in
           let p := Path_subjects ext (sourcePath (hooks w) w src) in
           let stale_try :=
             if truthy (stale w)
             then Z.lxor (stale w) QC_STALE_SOURCE_CHANGED
             else stale w in
           queryEngine (gLdfQryCtx w') = engine
           /\ calls w'
              = calls w
                ++ (if truthy (stale w)
                    then [CallComunicaEngine (source (hooks w))] else [])
                ++ [CallPathFactory None engine;
                    CallCreate (new_PathFactory None engine)
                      (namedNode (Some src))]
           /\ grSubjects w' = kept_subjects p
           /\ match rejection p with
              | None =>
                  c = Normal tt
                  /\ stale w' = stale_try
                  /\ ldfSubject (hooks w')
                     = first_or (kept_subjects p) (ldfSubject (hooks w))
                  /\ status (hooks w') = None
              | Some t =>
                  match Thrown_message t with
                  | inl m =>
                      c = Normal tt
                      /\ stale w' = QC_STALE_SOURCE_CHANGED
                      /\ ldfSubject (hooks w') = None
                      /\ status (hooks w') = JsValue_status m
                  | inr t' =>
                      c = Throw t'
                      /\ stale w' = stale_try
                      /\ ldfSubject (hooks w') = ldfSubject (hooks w)
                      /\ status (hooks w') = None
                  end
              end
       | Return => False
       | Throw _ =>
           c = Normal tt
           /\ queryEngine (gLdfQryCtx w') = queryEngine (gLdfQryCtx w)
           /\ calls w' = calls w
           /\ grSubjects w' = []
           /\ stale w' = QC_STALE_SOURCE_CHANGED
           /\ ldfSubject (hooks w') = None
           /\ exists m, status (hooks w')
                        = Some (str "Invalid source URL: " ++ m)
       end.
Proof.
  unfold invoke, getSourceSubjects, getSourceSubjects_try, sourcePath.
  run_core. rewrite validateSource_eq.
  destruct (validateSource_result_cases ext (source (hooks w)))
    as [-> | (m & ->)];
    [| unfold getSourceSubjects_catch, get_message, Thrown_message;
       run_core; do 2 eexists;
       split; [reflexivity |]; cbn; unfold same_inputs; cbn;
       repeat (split; [solve [auto] |]); eexists; reflexivity].
  unfold refreshLdfQryCtxEngine.
  destruct (guard_any_stale (ldfQryCtxStale (hooks w))) as [-> _].
  destruct (truthy (ldfQryCtxStale (hooks w))) eqn:E; run_core.
  - match goal with
    | |- context [forAwait ?p getSourceSubjects_each tt ?w0] =>
        destruct (forAwait_subjects_any p w0)
          as (w1 & -> & Hg & Hh & Hq & Hc & Hp)
    end.
    cbn [grSubjects app hooks gLdfQryCtx calls grSubjectProperties]
      in Hg, Hh, Hq, Hc, Hp.
    destruct (rejection _) as [t |].
    + unfold getSourceSubjects_catch, get_message.
      destruct (Thrown_message t) as [v | t']; run_core;
        (do 2 eexists; split; [reflexivity |]); cbn;
        rewrite ?Hh, ?Hq, ?Hc, ?Hg, ?Hp; cbn;
        rewrite <- !app_assoc; unfold same_inputs; cbn; auto 15.
    + rewrite Hg.
      destruct (kept_subjects _) as [| x l] eqn:Hk;
        (do 2 eexists; split; [reflexivity |]); cbn; rewrite Hh, Hq, Hc, Hp;
        cbn; rewrite <- !app_assoc; unfold same_inputs; cbn;
        rewrite ?Hg, ?Hk; auto 15.
  - match goal with
    | |- context [forAwait ?p getSourceSubjects_each tt ?w0] =>
        destruct (forAwait_subjects_any p w0)
          as (w1 & -> & Hg & Hh & Hq & Hc & Hp)
    end.
    cbn [grSubjects app hooks gLdfQryCtx calls grSubjectProperties]
      in Hg, Hh, Hq, Hc, Hp.
    destruct (rejection _) as [t |].
    + unfold getSourceSubjects_catch, get_message.
      destruct (Thrown_message t) as [v | t']; run_core;
        (do 2 eexists; split; [reflexivity |]); cbn;
        rewrite ?Hh, ?Hq, ?Hc, ?Hg, ?Hp; cbn;
        rewrite <- !app_assoc; unfold same_inputs; cbn;
        destruct (gLdfQryCtx w); cbn; auto 15.
    + rewrite Hg.
      destruct (kept_subjects _) as [| x l] eqn:Hk;
        (do 2 eexists; split; [reflexivity |]); cbn; rewrite Hh, Hq, Hc, Hp;
        cbn; rewrite <- !app_assoc; unfold same_inputs; cbn;
        rewrite ?Hg, ?Hk; destruct (gLdfQryCtx w); cbn; auto 15.
Qed.

(** The run of [getSubjectProperties], in full. *)
Lemma getSubjectProperties_run (ext : Extern) (w : World) :
  exists c w',
    invoke (getSubjectProperties ext) w = (c, w')
    /\ responsePending (hooks w') = false
    /\ queryResult (hooks w') = queryResult (hooks w)
    /\ gLdfQryCtx w' = gLdfQryCtx w
    /\ stale w' = stale w
    /\ same_inputs w w'
    /\ ldfSubject (hooks w') = ldfSubject (hooks w)
    /\ grSubjects w' = grSubjects w
    /\ if emptySubject (ldfSubject (hooks w))
       then c = Normal tt
            /\ calls w' = calls w
            /\ grSubjectProperties w' = []
            /\ ldfProperty (hooks w') = None
            /\ status (hooks w') = Some (str "Error: No subject selected.")
       else
         match queryEngine (gLdfQryCtx w) with
         | None =>
             c = Normal tt
             /\ calls w' = calls w
             /\ grSubjectProperties w' = []
             /\ ldfProperty (hooks w') = None
             /\ status (hooks w')
                = Some (str "Error: Query engine not instantiated.")
         | Some engine =>
             let p := Path_properties ext
                        (subjectPropertiesPath (hooks w) engine) in
             calls w'
             = calls w
               ++ [CallPathFactory None (Some engine);
                   CallCreate (new_PathFactory None (Some engine))
                     (namedNode (ldfSubject (hooks w)))]
             /\ grSubjectProperties w' = map toString (produced p)
             /\ match rejection p with
                | None =>
                    c = Normal tt
                    /\ ldfProperty (hooks w')
                       = first_or (map toString (produced p))
                           (ldfProperty (hooks w))
                    /\ status (hooks w') = status (hooks w)
                | Some t =>
                    match Thrown_message t with
                    | inl m =>
                        c = Normal tt
                        /\ ldfProperty (hooks w') = None
                        /\ status (hooks w') = JsValue_status m
                    | inr t' =>
                        c = Throw t'
                        /\ ldfProperty (hooks w') = ldfProperty (hooks w)
                        /\ status (hooks w') = status (hooks w)
                    end
                end
         end.
Proof.
  unfold invoke, getSubjectProperties, getSubjectProperties_try,
    subjectPropertiesPath.
  run_core. rewrite blank_opt_emptySubject.
  destruct (emptySubject (ldfSubject (hooks w)));
    [unfold getSubjectProperties_catch, get_message, Thrown_message;
     run_core; do 2 eexists; split; [reflexivity |]; cbn;
     unfold same_inputs; destruct (gLdfQryCtx w); cbn; auto 15 |].
  run_core.
  destruct (queryEngine (gLdfQryCtx w)) as [engine |] eqn:He;
    [| unfold getSubjectProperties_catch, get_message, Thrown_message;
       run_core; do 2 eexists; split; [reflexivity |]; cbn;
       unfold same_inputs; destruct (gLdfQryCtx w); cbn; auto 15].
  run_core.
  match goal with
  | |- context [forAwait ?p getSubjectProperties_each tt ?w0] =>
      destruct (forAwait_properties_any p w0)
        as (w1 & -> & Hg & Hh & Hq & Hc & Hp)
  end.
  cbn [grSubjects app hooks gLdfQryCtx calls grSubjectProperties]
    in Hg, Hh, Hq, Hc, Hp.
  destruct (rejection _) as [t |].
  - unfold getSubjectProperties_catch, get_message.
    destruct (Thrown_message t) as [v | t']; run_core;
      (do 2 eexists; split; [reflexivity |]); cbn;
      rewrite ?Hh, ?Hq, ?Hc, ?Hg, ?Hp; cbn;
      rewrite <- !app_assoc; unfold same_inputs; cbn; auto 15.
  - rewrite Hg.
    destruct (map toString _) as [| x l] eqn:Hk;
      (do 2 eexists; split; [reflexivity |]); cbn; rewrite Hh, Hq, Hc, Hp;
      cbn; rewrite <- !app_assoc; unfold same_inputs; cbn;
      rewrite ?Hg, ?Hk; auto 15.
Qed.

(** With valid inputs and nothing stale, [execQuery] drains the
    subject path that is in the slot. *)
Lemma execQuery_cached_run (ext : Extern) (w : World) :
  stale w = QC_VALID ->
  inputs_valid ext (hooks w) = true ->
  let w0 := snd (clearQueryResultAndStatus w) in
  invoke (execQuery ext) w
  = match drained ext (ldfDataPath (hooks w))
            (subjectPath (gLdfQryCtx w)) with
    | inl l =>
        (Normal tt,
         snd (setResponsePending false (snd (setQueryResult (Some l) w0))))
    | inr t =>
        match Thrown_toString t with
        | inl text =>
            (Normal tt,
             snd (setResponsePending false
                    (snd (setStatus
                            (Some (str "Query execution failed: " ++ text))
                            w0))))
        | inr t' => (Throw t', snd (setResponsePending false w0))
        end
    end.
Proof.
  intros Hs Hv. destruct (execQuery_valid_run ext w Hv) as (j & _ & Hrun).
  cbv zeta in Hrun. unfold refreshed in Hrun. rewrite Hs in Hrun.
  exact Hrun.
Qed.

(** The outcome of such a run, read off the next render. *)
Lemma execQuery_cached_outcome (ext : Extern) (w : World) :
  stale w = QC_VALID ->
  inputs_valid ext (hooks w) = true ->
  let w' := snd (invoke (execQuery ext) w) in
  match drained ext (ldfDataPath (hooks w)) (subjectPath (gLdfQryCtx w)) with
  | inl l => queryResult (hooks w') = Some l /\ status (hooks w') = None
  | inr t =>
      queryResult (hooks w') = None
      /\ match Thrown_toString t with
         | inl text =>
             status (hooks w')
             = Some (str "Query execution failed: " ++ text)
         | inr _ => status (hooks w') = None
         end
  end.
Proof.
  intros Hs Hv. cbv zeta. rewrite (execQuery_cached_run ext w Hs Hv).
  destruct (drained ext _ _) as [l | t]; [cbn; auto |].
  destruct (Thrown_toString t); cbn; auto.
Qed.

(* ------------------------------------------------------------------ *)
(** *** X5 *)

(** X5. However [getSourceSubjects] ends, it ends the pending state
    and leaves the query result cleared; it assigns neither the
    path-factory slot nor the subject-path slot, and it changes neither
    the source, the context or the data path, nor the selected property
    and the list of properties, which thus outlive the subject they
    were listed for. It completes normally in every case but one: when
    the subjects producer rejects with a value whose [message] cannot
    be read ([undefined] or [null] for one), what the read throws
    leaves [getSourceSubjects] from its [catch] clause. *)
Theorem X5_getSourceSubjects_frame (ext : Extern) (w : World) :
  exists c w',
    invoke (getSourceSubjects ext) w = (c, w')
    /\ responsePending (hooks w') = false
    /\ queryResult (hooks w') = None
    /\ pathFactory (gLdfQryCtx w') = pathFactory (gLdfQryCtx w)
    /\ subjectPath (gLdfQryCtx w') = subjectPath (gLdfQryCtx w)
    /\ same_inputs w w'
    /\ ldfProperty (hooks w') = ldfProperty (hooks w)
    /\ grSubjectProperties w' = grSubjectProperties w
    /\ (c = Normal tt
        \/ exists src t t',
             validateSource_result ext (source (hooks w)) = Normal src
             /\ rejection (Path_subjects ext (sourcePath (hooks w) w src))
                = Some t
             /\ Thrown_message t = inr t'
             /\ c = Throw t').
Proof.
  destruct (getSourceSubjects_run ext w)
    as (c & w' & Hrun & Hp & Hr & Hpf & Hsp & Hin & Hprop & Hl & Hcase).
  exists c, w'. repeat (split; [assumption |]).
  destruct (validateSource_result ext (source (hooks w))) as [src | | ex];
    [| contradiction | left; tauto].
  cbv zeta in Hcase. destruct Hcase as (_ & _ & _ & Hcase).
  destruct (rejection _) as [t |] eqn:Hrej; [| left; tauto].
  destruct (Thrown_message t) as [m | t'] eqn:Hm; [left; tauto |].
  right. exists src, t, t'. tauto.
Qed.

(* ------------------------------------------------------------------ *)
(** *** X6 *)

(** X6. When the subjects producer rejects after it has yielded
    values, [getSourceSubjects] keeps in [grSubjects] the identifiers
    kept so far: the list of options is not emptied. When the [message]
    of the value rejected with can be read, as of every [Error] object,
    the selected subject is [null], the staleness value
    [QC_STALE_SOURCE_CHANGED] and the status the message read;
    otherwise what the read throws leaves the call, the subject stays
    selected, no status is set and the staleness value is as
    [refreshLdfQryCtxEngine] left it. *)
Theorem X6_getSourceSubjects_keeps_partial_list
  (ext : Extern) (w : World) (src : jsstring) (t : Thrown) :
  validateSource_result ext (source (hooks w)) = Normal src ->
  rejection (Path_subjects ext (sourcePath (hooks w) w src)) = Some t ->
  let res := invoke (getSourceSubjects ext) w in
  let w' := snd res in
  grSubjects w'
  = kept_subjects (Path_subjects ext (sourcePath (hooks w) w src))
  /\ match Thrown_message t with
     | inl m =>
         fst res = Normal tt
         /\ ldfSubject (hooks w') = None
         /\ stale w' = QC_STALE_SOURCE_CHANGED
         /\ status (hooks w') = JsValue_status m
     | inr t' =>
         fst res = Throw t'
         /\ ldfSubject (hooks w') = ldfSubject (hooks w)
         /\ stale w'
            = (if truthy (stale w)
               then Z.lxor (stale w) QC_STALE_SOURCE_CHANGED
               else stale w)
         /\ status (hooks w') = None
     end.
Proof.
  intros Hsrc Hrej.
  destruct (getSourceSubjects_run ext w) as (c & w' & Hrun & Hrest).
  do 7 (destruct Hrest as (_ & Hrest)).
  rewrite Hsrc in Hrest. cbv zeta in Hrest.
  destruct Hrest as (_ & _ & Hg & Hcase). rewrite Hrej in Hcase.
  cbv zeta. rewrite Hrun. cbn [fst snd]. split; [exact Hg |].
  destruct (Thrown_message t); tauto.
Qed.

Lemma X6_getSourceSubjects_keeps_partial_list_witness :
  let ids := proxies ["https://x/1"; "_:b0"; "https://x/2"]%string in
  let w' := snd (invoke (getSourceSubjects
                           (mock Done (yields_then_raise ids fetch_failed)
                              Done))
                   initial_world) in
  let res := invoke (getSourceSubjects
                       (mock Done (yields_then_raise ids ThrownUndefined)
                          Done))
               world_with_subject in
  (grSubjects w' = [str "https://x/1"; str "https://x/2"]
   /\ ldfSubject (hooks w') = None)
  /\ (grSubjects (snd res) = [str "https://x/1"; str "https://x/2"]
      /\ fst res = Throw (ThrownError (TypeError_undefined "message"))
      /\ ldfSubject (hooks (snd res)) = ldfSubject (hooks world_with_subject)
      /\ stale (snd res) = 5%Z).
Proof.
  intros ids w' res. split.
  - pose proof (X6_getSourceSubjects_keeps_partial_list
                  (mock Done (yields_then_raise ids fetch_failed) Done)
                  initial_world _ fetch_failed eq_refl eq_refl)
      as (Hg & _ & Hs & _).
    split; [exact Hg | exact Hs].
  - pose proof (X6_getSourceSubjects_keeps_partial_list
                  (mock Done (yields_then_raise ids ThrownUndefined) Done)
                  world_with_subject _ ThrownUndefined eq_refl eq_refl)
      as (Hg & Hc & Hs & Hst & _).
    split; [exact Hg | split; [exact Hc | split; [exact Hs | exact Hst]]].
Defined.

(* ------------------------------------------------------------------ *)
(** *** X7 *)



(* ------------------------------------------------------------------ *)
(** *** X8 *)

(** X8. However [getSubjectProperties] ends, it ends the pending
    state and never touches the query context: the three slots and the
    staleness value are left as they are, also when the producer
    rejects; nor the query result, the form inputs, the selected
    subject and the list of subjects. It completes normally in every
    case but one: when the properties producer rejects with a value
    whose [message] cannot be read ([undefined] or [null] for one),
    what the read throws leaves the call from its [catch] clause. *)
Theorem X8_getSubjectProperties_frame (ext : Extern) (w : World) :
  exists c w',
    invoke (getSubjectProperties ext) w = (c, w')
    /\ responsePending (hooks w') = false
    /\ queryResult (hooks w') = queryResult (hooks w)
    /\ gLdfQryCtx w' = gLdfQryCtx w
    /\ stale w' = stale w
    /\ same_inputs w w'
    /\ ldfSubject (hooks w') = ldfSubject (hooks w)
    /\ grSubjects w' = grSubjects w
    /\ (c = Normal tt
        \/ exists engine t t',
             emptySubject (ldfSubject (hooks w)) = false
             /\ queryEngine (gLdfQryCtx w) = Some engine
             /\ rejection (Path_properties ext
                             (subjectPropertiesPath (hooks w) engine))
                = Some t
             /\ Thrown_message t = inr t'
             /\ c = Throw t').
Proof.
  destruct (getSubjectProperties_run ext w)
    as (c & w' & Hrun & Hp & Hr & Hq & Hs & Hin & Hsub & Hl & Hcase).
  exists c, w'. repeat (split; [assumption |]).
  destruct (emptySubject (ldfSubject (hooks w))); [left; tauto |].
  destruct (queryEngine (gLdfQryCtx w)) as [engine |]; [| left; tauto].
  cbv zeta in Hcase. destruct Hcase as (_ & _ & Hcase).
  destruct (rejection _) as [t |] eqn:Hrej; [| left; tauto].
  destruct (Thrown_message t) as [m | t'] eqn:Hm; [left; tauto |].
  right. exists engine, t, t'. tauto.
Qed.

(* ------------------------------------------------------------------ *)
(** *** X9 *)

(** X9. Without a subject ([null], empty or white space only) or
    without an engine in the slot, [getSubjectProperties] constructs
    nothing, leaves the list of properties empty and the selected
    property [null], and reports which of the two is missing, the
    subject first. *)
Theorem X9_getSubjectProperties_guards (ext : Extern) (w : World) :
  emptySubject (ldfSubject (hooks w)) = true
  \/ queryEngine (gLdfQryCtx w) = None ->
  let w' := snd (invoke (getSubjectProperties ext) w) in
  calls w' = calls w
  /\ grSubjectProperties w' = []
  /\ ldfProperty (hooks w') = None
  /\ status (hooks w')
     = Some (if emptySubject (ldfSubject (hooks w))
             then str "Error: No subject selected."
             else str "Error: Query engine not instantiated.").
Proof.
  intros Hguard.
  destruct (getSubjectProperties_run ext w) as (c & w' & Hrun & Hrest).
  do 7 (destruct Hrest as (_ & Hrest)).
  cbv zeta. rewrite Hrun. cbn [snd].
  destruct (emptySubject (ldfSubject (hooks w))); [tauto |].
  destruct Hguard as [Hs | He]; [discriminate |].
  rewrite He in Hrest. tauto.
Qed.

Lemma X9_getSubjectProperties_guards_witness :
  let ext := mock Done Done (yields (proxies ["http://p/1"]%string)) in
  status (hooks (snd (invoke (getSubjectProperties ext) initial_world)))
  = Some (str "Error: No subject selected.")
  /\ status (hooks (snd (invoke (getSubjectProperties ext) world_with_subject)))
     = Some (str "Error: Query engine not instantiated.").
Proof.
  intros ext. split.
  - exact (proj2 (proj2 (proj2
      (X9_getSubjectProperties_guards ext initial_world
         (or_introl eq_refl))))).
  - exact (proj2 (proj2 (proj2
      (X9_getSubjectProperties_guards ext world_with_subject
         (or_intror eq_refl))))).
Defined.

(* ------------------------------------------------------------------ *)
(** *** X10 *)

(** X10. With a subject and an engine, [getSubjectProperties] builds
    one path factory without context on the engine of the slot and one
    path on the subject, and lists every identifier produced, in
    order and unfiltered, up to the end or the rejection of the
    producer. At the end it selects the first property (or keeps the
    selection when there is none) and leaves the status as it was, an
    earlier error message included. On a rejection the listed
    properties stay in the list; when the [message] of the value
    rejected with can be read, as of every [Error] object, the
    selection is set to [null] and the status to the message read;
    otherwise what the read throws leaves the call, and selection and
    status stay as they were. *)
Theorem X10_getSubjectProperties_outcomes
  (ext : Extern) (w : World) (engine : ComunicaEngine) :
  emptySubject (ldfSubject (hooks w)) = false ->
  queryEngine (gLdfQryCtx w) = Some engine ->
  let p := Path_properties ext (subjectPropertiesPath (hooks w) engine) in
  let res := invoke (getSubjectProperties ext) w in
  let w' := snd res in
  calls w'
  = calls w
    ++ [CallPathFactory None (Some engine);
        CallCreate (new_PathFactory None (Some engine))
          (namedNode (ldfSubject (hooks w)))]
  /\ grSubjectProperties w' = map toString (produced p)
  /\ match rejection p with
     | None =>
         fst res = Normal tt
         /\ ldfProperty (hooks w')
            = first_or (map toString (produced p)) (ldfProperty (hooks w))
         /\ status (hooks w') = status (hooks w)
     | Some t =>
         match Thrown_message t with
         | inl m =>
             fst res = Normal tt
             /\ ldfProperty (hooks w') = None
             /\ status (hooks w') = JsValue_status m
         | inr t' =>
             fst res = Throw t'
             /\ ldfProperty (hooks w') = ldfProperty (hooks w)
             /\ status (hooks w') = status (hooks w)
         end
     end.
Proof.
  intros Hs He.
  destruct (getSubjectProperties_run ext w) as (c & w' & Hrun & Hrest).
  do 7 (destruct Hrest as (_ & Hrest)).
  rewrite Hs, He in Hrest. cbv zeta in Hrest.
  cbv zeta. rewrite Hrun. cbn [fst snd]. exact Hrest.
Qed.

Lemma X10_getSubjectProperties_outcomes_witness :
  let ids := proxies ["http://p/1"; "_:b1"]%string in
  let subjects := yields (proxies ["https://x/1"]%string) in
  let ext := mock Done subjects (yields_then_raise ids fetch_failed) in
  let ext' := mock Done subjects (yields_then_raise ids ThrownNull) in
  let w := snd (invoke (getSourceSubjects ext) initial_world) in
  let w' := snd (invoke (getSubjectProperties ext) w) in
  let res := invoke (getSubjectProperties ext') w in
  (grSubjectProperties w' = [str "http://p/1"; str "_:b1"]
   /\ ldfProperty (hooks w') = None
   /\ status (hooks w') = Some (str "Failed to fetch"))
  /\ (grSubjectProperties (snd res) = [str "http://p/1"; str "_:b1"]
      /\ fst res = Throw (ThrownError (TypeError_null "message"))
      /\ status (hooks (snd res)) = None).
Proof.
  intros ids subjects ext ext' w w' res. split.
  - pose proof (X10_getSubjectProperties_outcomes ext w _ eq_refl eq_refl)
      as (_ & Hl & _ & Hp & Hst).
    split; [exact Hl | split; [exact Hp | exact Hst]].
  - pose proof (X10_getSubjectProperties_outcomes ext' w _ eq_refl eq_refl)
      as (_ & Hl & Hc & _ & Hst).
    split; [exact Hl | split; [exact Hc | exact Hst]].
Defined.

(* ------------------------------------------------------------------ *)
(** *** X11 *)

(** X11. In every state, neither a change of the data path nor the
    selection of a property touches the query context: slots, log and
    staleness value stay. After a completed query, [execQuery] with
    another data path thus constructs nothing and drains the subject
    path of the slot with the new data path. *)
Theorem X11_data_path_change_reuses_chain
  (ext : Extern) (w : World) (value : jsstring) :
  let w1 := snd (dataPathChangeHandler value w) in
  let w2 := snd (invoke (execQuery ext) w1) in
  same_chain w w1
  /\ same_chain w (snd (lstPropertyChangeHandler value w))
  /\ ldfDataPath (hooks w1) = value
  /\ (stale w = QC_VALID ->
      same_chain w1 w2
      /\ (if inputs_valid ext (hooks w1)
          then
            match drained ext value (subjectPath (gLdfQryCtx w)) with
            | inl l => queryResult (hooks w2) = Some l
            | inr t =>
                match Thrown_toString t with
                | inl text =>
                    status (hooks w2)
                    = Some (str "Query execution failed: " ++ text)
                | inr _ => status (hooks w2) = None
                end
            end
          else True)).
Proof.
  cbv zeta.
  set (w1 := snd (dataPathChangeHandler value w)).
  split; [unfold same_chain; cbn; auto |].
  split; [unfold same_chain; cbn; auto |].
  split; [reflexivity |].
  intros Hst.
  assert (Hst1 : stale w1 = QC_VALID) by exact Hst.
  split.
  - destruct (execQuery_valid_frame ext (hooks w1) w1 Hst1)
      as (c2 & w2 & Hr2 & Hc & Hq & Hs).
    unfold invoke. rewrite Hr2. unfold same_chain. auto.
  - destruct (inputs_valid ext (hooks w1)) eqn:Hin; [| exact I].
    pose proof (execQuery_cached_outcome ext w1 Hst1 Hin) as Hout.
    cbv zeta in Hout.
    change (ldfDataPath (hooks w1)) with value in Hout.
    change (subjectPath (gLdfQryCtx w1)) with (subjectPath (gLdfQryCtx w))
      in Hout.
    destruct (drained ext value _) as [l | t]; [tauto |].
    destruct Hout as (_ & Hout). exact Hout.
Qed.

Lemma X11_data_path_change_reuses_chain_witness :
  let ext := mock (yields (proxies ["Alice"; "Alice"]%string)) Done Done in
  let w := snd (invoke (execQuery ext) world_with_subject) in
  let w1 := snd (dataPathChangeHandler (str ".name") w) in
  let w2 := snd (invoke (execQuery ext) w1) in
  List.length (calls w) = 3
  /\ calls w2 = calls w
  /\ queryResult (hooks w2) = Some [str "Alice"].
Proof.
  intros ext w w1 w2.
  pose proof (X11_data_path_change_reuses_chain ext w (str ".name"))
    as (_ & _ & _ & Hcached).
  destruct (Hcached eq_refl) as ((_ & Hc & _) & Hout).
  split; [reflexivity | split; [exact Hc | exact Hout]].
Defined.

(* ================================================================== *)
(** ** Further properties: what holds throughout a session *)
(* ================================================================== *)

Lemma stale_occurs_cases (st : Z) :
  stale_occurs st = true ->
  st = 0%Z \/ st = 1%Z \/ st = 2%Z \/ st = 4%Z \/ st = 5%Z \/ st = 6%Z.
Proof.
  unfold stale_occurs. cbn. rewrite !orb_true_iff, !Z.eqb_eq.
  intuition discriminate.
Qed.

Lemma stale_occurs_lxor (st : Z) :
  stale_occurs st = true ->
  stale_occurs (Z.lxor st QC_STALE_SOURCE_CHANGED) = true.
Proof.
  intros H. apply stale_occurs_cases in H.
  destruct H as [-> | [-> | [-> | [-> | [-> | ->]]]]]; reflexivity.
Qed.

(** What [execQuery] does to the facts of the invariant, however it
    ends. *)
Lemma execQuery_session_facts (ext : Extern) (w : World) :
  exists c w',
    invoke (execQuery ext) w = (c, w')
    /\ same_selection w w'
    /\ (same_chain w w' \/ (stale w' = QC_VALID /\ engine_built w')).
Proof.
  destruct (inputs_valid ext (hooks w)) eqn:Hv.
  - destruct (execQuery_valid_shape ext w Hv)
      as (j & w2 & c & _ & -> &
          [(_ & l & ->) | [(_ & msg & ->) | (-> & _)]]);
      (do 2 eexists; split; [reflexivity |]);
      unfold refreshed, same_selection, same_chain, engine_built;
      destruct (truthy (stale w)); cbn; (split; [auto 10 |]);
      solve [left; auto | right; split; [reflexivity | discriminate]].
  - destruct (execQuery_invalid_run ext w Hv) as (msg & ->).
    do 2 eexists. split; [reflexivity |].
    unfold same_selection, same_chain. cbn. auto 10.
Qed.

(** Every action keeps the invariant. *)
Lemma perform_session_invariant (ext : Extern) (pathname : jsstring)
  (a : Action) (p : Page) :
  enabled a p ->
  session_invariant (world p) ->
  session_invariant (world (perform ext pathname a p)).
Proof.
  intros Hen (Hocc & Hvalid & Hlist & Hsub).
  unfold session_invariant, engine_built in *.
  destruct a; cbn [perform enabled] in *;
    unfold on_world, outputFormatChangeHandler, setOutputFormat,
      resetDefaults, pushState; cbn [world].
  - (* EditSource *)
    cbn. repeat split; try discriminate; congruence.
  - (* SelectSubject *)
    cbn. assert (He : queryEngine (gLdfQryCtx (world p)) <> None).
    { apply Hlist. intros E. rewrite E in Hen. exact Hen. }
    repeat split; auto; discriminate.
  - (* SelectProperty *)
    cbn. auto.
  - (* EditContext *)
    cbn. repeat split; auto; discriminate.
  - (* SelectDataPath *)
    cbn. auto.
  - (* SelectOutputFormat *)
    auto.
  - (* ClickSubjects *)
    destruct (getSourceSubjects_run ext (world p))
      as (c & w' & -> & _ & _ & _ & _ & _ & _ & _ & Hcase).
    cbn [snd].
    destruct (validateSource_result ext (source (hooks (world p))))
      as [src | | ex]; [| contradiction |].
    + cbv zeta in Hcase. destruct Hcase as (He & _ & _ & Hcase).
      assert (Hb : queryEngine (gLdfQryCtx w') <> None).
      { rewrite He. destruct (truthy (stale (world p))) eqn:E;
          [discriminate |].
        apply Hvalid. now apply truthy_false_iff. }
      repeat split; auto.
      assert (Htry : stale_occurs
                       (if truthy (stale (world p))
                        then Z.lxor (stale (world p)) QC_STALE_SOURCE_CHANGED
                        else stale (world p)) = true).
      { destruct (truthy (stale (world p))); [| assumption].
        now apply stale_occurs_lxor. }
      destruct (rejection _) as [t |];
        [destruct (Thrown_message t) |];
        destruct Hcase as (_ & -> & _); solve [reflexivity | exact Htry].
    + destruct Hcase as (_ & He & _ & Hg & Hs & Hsu & _).
      rewrite Hs, Hg, Hsu, He.
      repeat split; try discriminate; congruence.
  - (* ClickProperties *)
    destruct (getSubjectProperties_run ext (world p))
      as (c & w' & -> & _ & _ & Hq & Hs & _ & Hsu & Hg & _).
    cbn [snd]. rewrite Hq, Hs, Hsu, Hg. auto.
  - (* ClickExecute *)
    destruct (execQuery_session_facts ext (world p))
      as (c & w' & -> & (Hsu & _ & Hg & _) & Hchain).
    cbn [snd]. rewrite Hsu, Hg.
    destruct Hchain as [(Hq & _ & Hs) | (Hs & Hb)].
    + rewrite Hq, Hs. auto.
    + rewrite Hs. repeat split; auto.
  - (* ClickClear *)
    cbn. auto.
  - (* ClickDefaults *)
    cbn. repeat split; try discriminate; congruence.
Qed.

Lemma first_render_session_invariant (b : Browser) (pageUrl : jsstring)
  (p : Page) :
  first_render b pageUrl = inl p -> session_invariant (world p).
Proof.
  unfold first_render.
  destruct (URL_searchParams b pageUrl); [| discriminate].
  intros E. inversion E; subst. unfold session_invariant, engine_built.
  cbn. repeat split; try discriminate; congruence.
Qed.

Lemma reachable_session_invariant (b : Browser) (pageUrl pathname : jsstring)
  (p : Page) :
  reachable b pageUrl pathname p -> session_invariant (world p).
Proof.
  induction 1 as [p Hfirst | p ext a Hreach IH Hen].
  - exact (first_render_session_invariant b pageUrl p Hfirst).
  - now apply perform_session_invariant.
Qed.

(* ------------------------------------------------------------------ *)
(** *** X12 *)

(** X12. In every page of a session (a first render, then edits,
    selections among the offered options and button presses in any
    order, each handled to its end before the next, the environment
    answering as it likes) the staleness value
    is one of 0, 1, 2, 4, 5 and 6: the context flag and the subject
    flag are never set together. When it is [QC_VALID], the engine
    slot holds an engine. *)
Theorem X12_session_staleness_values
  (b : Browser) (pageUrl pathname : jsstring) (p : Page) :
  reachable b pageUrl pathname p ->
  stale_occurs (stale (world p)) = true
  /\ contextChanged (stale (world p)) && subjectChanged (stale (world p))
     = false
  /\ (stale (world p) = QC_VALID -> engine_built (world p)).
Proof.
  intros Hreach.
  destruct (reachable_session_invariant b pageUrl pathname p Hreach)
    as (Hocc & Hvalid & _).
  split; [exact Hocc |]. split; [| exact Hvalid].
  apply stale_occurs_cases in Hocc.
  destruct Hocc as [-> | [-> | [-> | [-> | [-> | ->]]]]]; reflexivity.
Qed.

Lemma X12_session_staleness_values_witness :
  let ext := mock Done (yields (proxies ["https://x/1"]%string)) Done in
  let p := perform ext (str "/")
             ClickSubjects
             (perform ext (str "/") (EditContext (str "{}")) (first_page []))
  in
  stale (world p) = 6%Z /\ stale_occurs (stale (world p)) = true.
Proof.
  intros ext p. split; [reflexivity |].
  refine (proj1 (X12_session_staleness_values (browser_mock [])
                   (str "https://flexpress.example/") (str "/") p _)).
  apply reachable_step; [| exact I].
  apply reachable_step; [| exact I].
  apply reachable_first. reflexivity.
Defined.

(* ------------------------------------------------------------------ *)
(** *** X13 *)

(** X13. In every page of a session with a subject selected, the
    engine slot holds an engine: [getSubjectProperties] then passes its
    two guards, the one on the engine (of which the source says that it
    should not happen) never failing, and constructs a path factory on
    that engine and a path on the subject. *)
Theorem X13_session_subject_has_engine
  (b : Browser) (pageUrl pathname : jsstring) (p : Page) (ext : Extern) :
  reachable b pageUrl pathname p ->
  emptySubject (ldfSubject (hooks (world p))) = false ->
  exists engine,
    queryEngine (gLdfQryCtx (world p)) = Some engine
    /\ calls (snd (invoke (getSubjectProperties ext) (world p)))
       = calls (world p)
         ++ [CallPathFactory None (Some engine);
             CallCreate (new_PathFactory None (Some engine))
               (namedNode (ldfSubject (hooks (world p))))].
Proof.
  intros Hreach Hs.
  destruct (reachable_session_invariant b pageUrl pathname p Hreach)
    as (_ & _ & _ & Hsub).
  assert (Hb : engine_built (world p)).
  { apply Hsub. destruct (ldfSubject (hooks (world p))); [discriminate |].
    discriminate. }
  unfold engine_built in Hb.
  destruct (queryEngine (gLdfQryCtx (world p))) as [engine |] eqn:He;
    [| contradiction].
  exists engine. split; [reflexivity |].
  destruct (getSubjectProperties_run ext (world p))
    as (c & w' & Hrun & Hrest).
  do 7 (destruct Hrest as (_ & Hrest)).
  rewrite Hs, He in Hrest. cbv zeta in Hrest.
  rewrite Hrun. cbn [snd]. tauto.
Qed.

Lemma X13_session_subject_has_engine_witness :
  let ext := mock Done (yields (proxies ["https://x/1"]%string)) Done in
  let p := perform ext (str "/") ClickSubjects (first_page []) in
  ldfSubject (hooks (world p)) = Some (str "https://x/1")
  /\ exists engine, queryEngine (gLdfQryCtx (world p)) = Some engine.
Proof.
  intros ext p. split; [reflexivity |].
  assert (Hreach : reachable (browser_mock [])
                     (str "https://flexpress.example/") (str "/") p).
  { apply reachable_step; [| exact I]. apply reachable_first. reflexivity. }
  destruct (X13_session_subject_has_engine (browser_mock [])
              (str "https://flexpress.example/") (str "/") p ext Hreach
              eq_refl) as (engine & He & _).
  exists engine. exact He.
Defined.

(* ================================================================== *)
(** ** Further properties: the query string and the source text *)
(* ================================================================== *)

Lemma trimStart_idem (s : jsstring) :
  JsString.trimStart (JsString.trimStart s) = JsString.trimStart s.
Proof.
  induction s as [| c s IH]; cbn; [reflexivity |].
  destruct (JsString.isWhiteSpace c) eqn:Hc; [exact IH |].
  cbn. now rewrite Hc.
Qed.

Lemma trimStart_head (s t : jsstring) (c : N) :
  JsString.trimStart s = c :: t -> JsString.isWhiteSpace c = false.
Proof.
  induction s as [| x s IH]; cbn; [discriminate |].
  destruct (JsString.isWhiteSpace x) eqn:Hx; [exact IH |].
  intros E. inversion E; subst. exact Hx.
Qed.

Lemma trimStart_snoc (l : jsstring) (c : N) :
  JsString.isWhiteSpace c = false ->
  JsString.trimStart (l ++ [c]) = JsString.trimStart l ++ [c].
Proof.
  intros Hc. induction l as [| x l IH]; cbn.
  - now rewrite Hc.
  - destruct (JsString.isWhiteSpace x); [exact IH | reflexivity].
Qed.

(** Trimming the end of a string that starts with a character other
    than white space keeps that character in front. *)
Lemma trimEnd_cons (c : N) (t : jsstring) :
  JsString.isWhiteSpace c = false ->
  JsString.trimEnd (c :: t) = c :: rev (JsString.trimStart (rev t)).
Proof.
  intros Hc. unfold JsString.trimEnd. cbn [rev].
  rewrite (trimStart_snoc _ c Hc), rev_app_distr. reflexivity.
Qed.

(** [trim] is idempotent. *)
Lemma trim_idem (s : jsstring) :
  JsString.trim (JsString.trim s) = JsString.trim s.
Proof.
  unfold JsString.trim at 2 3.
  destruct (JsString.trimStart s) as [| c t] eqn:Hs; [reflexivity |].
  pose proof (trimStart_head s t c Hs) as Hc.
  rewrite (trimEnd_cons c t Hc). unfold JsString.trim.
  cbn [JsString.trimStart]. rewrite Hc.
  rewrite (trimEnd_cons c _ Hc), rev_involutive, trimStart_idem.
  reflexivity.
Qed.

Lemma whitespaceOnly_trim (s : jsstring) :
  JsString.whitespaceOnly (JsString.trim s) = JsString.whitespaceOnly s.
Proof.
  destruct (JsString.whitespaceOnly s) eqn:Hw.
  - apply trim_nil_iff in Hw. now rewrite Hw.
  - destruct (JsString.whitespaceOnly (JsString.trim s)) eqn:Ht;
      [| reflexivity].
    apply trim_nil_iff in Ht. rewrite trim_idem in Ht.
    apply trim_nil_iff in Ht. congruence.
Qed.

(** A parameter of the query string is [null] or a trimmed text. *)
Lemma qs_param_shape (b : Browser) (params : list (jsstring * jsstring))
  (name : string) (v : JsValue) :
  qs_param b params name = inl v ->
  v = JsNull \/ exists decoded, v = JsStr (JsString.trim decoded).
Proof.
  unfold qs_param. destruct (searchParams_has params (str name)).
  - destruct (decodeURIComponent b _) as [d | e]; intros E; inversion E.
    right. eauto.
  - intros E. inversion E. now left.
Qed.

(** The default, or a trimmed text that is not empty, is never made of
    white space only. *)
Lemma JsValue_or_not_blank (v : JsValue) (d : jsstring) :
  (v = JsUndefined \/ v = JsNull
   \/ exists decoded, v = JsStr (JsString.trim decoded)) ->
  JsString.whitespaceOnly d = false ->
  JsString.whitespaceOnly (JsValue_or v d) = false.
Proof.
  intros [-> | [-> | (decoded & ->)]] Hd; cbn; auto.
  destruct (JsString.trim decoded) as [| c t] eqn:Ht; cbn [JsString.truthy];
    [exact Hd |].
  rewrite <- Ht, whitespaceOnly_trim.
  destruct (JsString.whitespaceOnly decoded) eqn:Hw; [| reflexivity].
  apply trim_nil_iff in Hw. congruence.
Qed.

(** Each field of the object of [getQueryStringParams] is [undefined],
    [null] or a trimmed text. *)
Lemma getQueryStringParams_shape (b : Browser) (pageUrl : jsstring) :
  let qs := getQueryStringParams b pageUrl in
  let ok v := v = JsUndefined \/ v = JsNull
              \/ exists decoded, v = JsStr (JsString.trim decoded) in
  ok (qsSource qs) /\ ok (qsQuery qs) /\ ok (qsContext qs)
  /\ ok (qsOutputFormat qs).
Proof.
  cbv zeta. unfold getQueryStringParams.
  destruct (URL_searchParams b pageUrl) as [params |]; [| cbn; auto 10].
  destruct (qs_param b params "source") eqn:E1; [| cbn; auto 10].
  destruct (qs_param b params "query") eqn:E2; [| cbn; auto 10].
  destruct (qs_param b params "context") eqn:E3; [| cbn; auto 10].
  destruct (qs_param b params "format") eqn:E4; [| cbn; auto 10].
  apply qs_param_shape in E1, E2, E3, E4. cbn. tauto.
Qed.

(* ------------------------------------------------------------------ *)
(** *** X14 *)

(** X14. [getQueryStringParams] gives all of the parameters or none:
    when decoding one of [source], [query], [context] and [format]
    throws, the [query] parameter that nothing reads included, every
    field of the object is [undefined], and the first render falls back
    to the default source, context and output format whatever the page
    URL said of them. *)
Theorem X14_query_string_all_or_nothing
  (b : Browser) (pageUrl : jsstring) (params : list (jsstring * jsstring))
  (name : string) (e : Error) (p : Page) :
  URL_searchParams b pageUrl = inl params ->
  In name ["source"; "query"; "context"; "format"]%string ->
  qs_param b params name = inr e ->
  first_render b pageUrl = inl p ->
  getQueryStringParams b pageUrl = no_params
  /\ source (hooks (world p)) = defaultSource
  /\ context (hooks (world p)) = defaultContext
  /\ outputFormat p = defaultOutputFormat.
Proof.
  intros Hurl Hin Hthrow Hfirst.
  assert (Hqs : getQueryStringParams b pageUrl = no_params).
  { unfold getQueryStringParams. rewrite Hurl.
    destruct (qs_param b params "source") eqn:E1; [| reflexivity].
    destruct (qs_param b params "query") eqn:E2; [| reflexivity].
    destruct (qs_param b params "context") eqn:E3; [| reflexivity].
    destruct (qs_param b params "format") eqn:E4; [| reflexivity].
    cbn in Hin.
    destruct Hin as [<- | [<- | [<- | [<- | []]]]]; congruence. }
  split; [exact Hqs |].
  unfold first_render in Hfirst. rewrite Hurl, Hqs in Hfirst.
  inversion Hfirst; subst. cbn. auto.
Qed.

Lemma X14_query_string_all_or_nothing_witness :
  let params := [(str "source", str "https://example.org/card");
                 (str "query", str "100%")] in
  searchParams_get params (str "source") = Some (str "https://example.org/card")
  /\ source (hooks (world (first_page params))) = defaultSource.
Proof.
  intros params. split; [reflexivity |].
  exact (proj1 (proj2
    (X14_query_string_all_or_nothing (browser_mock params)
       (str "https://flexpress.example/") params "query"
       (mkError (str "URIError") (str "URI malformed")) (first_page params)
       eq_refl (or_intror (or_introl eq_refl)) eq_refl eq_refl))).
Defined.

(* ------------------------------------------------------------------ *)
(** *** X15 *)

(** X15. Whatever the page URL, the source and the context of the
    first render are not empty and not made of white space only: a
    parameter that is missing, empty or blank gives way to the default.
    The first render has no subject, the staleness value
    [QC_STALE_SOURCE_CHANGED] and the default data path, the [query]
    parameter having no part in it. *)
Theorem X15_first_render_inputs
  (b : Browser) (pageUrl : jsstring) (p : Page) :
  first_render b pageUrl = inl p ->
  JsString.whitespaceOnly (source (hooks (world p))) = false
  /\ JsString.whitespaceOnly (context (hooks (world p))) = false
  /\ ldfSubject (hooks (world p)) = None
  /\ stale (world p) = QC_STALE_SOURCE_CHANGED
  /\ ldfDataPath (hooks (world p)) = defaultLdfDataPath.
Proof.
  unfold first_render.
  destruct (URL_searchParams b pageUrl) as [params | e]; [| discriminate].
  intros E. inversion E; subst. cbn.
  destruct (getQueryStringParams_shape b pageUrl) as (Hs & _ & Hc & _).
  split; [apply JsValue_or_not_blank; [exact Hs | reflexivity] |].
  split; [apply JsValue_or_not_blank; [exact Hc | reflexivity] |].
  auto.
Qed.

Lemma X15_first_render_inputs_witness :
  let params := [(str "source", str "   "); (str "context", str " {} ")] in
  source (hooks (world (first_page params))) = defaultSource
  /\ context (hooks (world (first_page params))) = str "{}"
  /\ JsString.whitespaceOnly (source (hooks (world (first_page params))))
     = false.
Proof.
  intros params. split; [reflexivity | split; [reflexivity |]].
  exact (proj1 (X15_first_render_inputs (browser_mock params)
                  (str "https://flexpress.example/") (first_page params)
                  eq_refl)).
Defined.

(* ------------------------------------------------------------------ *)
(** *** X16 *)

(** X16. [validateSource] does not see the white space around the
    source: a source and its trimmed text get the same verdict and the
    same returned text, and a returned text validates to itself. *)
Theorem X16_validateSource_ignores_surrounding_space
  (ext : Extern) (r r' : Hooks) (w : World) :
  source r' = JsString.trim (source r) ->
  validateSource ext r' w = validateSource ext r w
  /\ (forall src, fst (validateSource ext r w) = Normal src ->
                  fst (validateSource ext r' w) = Normal (source r')).
Proof.
  intros Hs. rewrite !validateSource_eq. unfold validateSource_result.
  rewrite Hs, whitespaceOnly_trim, trim_idem. split; [reflexivity |].
  cbn [fst]. intros src.
  destruct (JsString.whitespaceOnly (source r)); [discriminate |].
  destruct (URL_parse ext (JsString.trim (source r))) as [u | e];
    [| discriminate].
  destruct (JsString.eqb (origin u) (str "null")); [discriminate |].
  reflexivity.
Qed.

Lemma X16_validateSource_ignores_surrounding_space_witness :
  let ext := mock Done Done Done in
  validateSource ext (hooks_with_source "https://example.org/profile")
    initial_world
  = validateSource ext (hooks_with_source "  https://example.org/profile ")
      initial_world.
Proof.
  intros ext.
  exact (proj1 (X16_validateSource_ignores_surrounding_space ext
                  (hooks_with_source "  https://example.org/profile ")
                  (hooks_with_source "https://example.org/profile")
                  initial_world eq_refl)).
Defined.

Lemma validateSource_result_normal (ext : Extern) (s src : jsstring) :
  validateSource_result ext s = Normal src -> src = JsString.trim s.
Proof.
  unfold validateSource_result.
  destruct (JsString.whitespaceOnly s); [discriminate |].
  destruct (URL_parse ext (JsString.trim s)) as [u | e]; [| discriminate].
  destruct (JsString.eqb (origin u) (str "null")); [discriminate |].
  intros E. now inversion E.
Qed.

(* ------------------------------------------------------------------ *)
(** *** X17 *)

(** X17. The constructions of [getSourceSubjects]. With a source that
    fails its validation there is none, the engine slot keeps its
    engine and the list of subjects is empty. With a valid source and
    a staleness value that is not zero, the engine is constructed from
    the source text as typed, white space around it included; then, and
    with nothing stale on the engine of the slot, a path factory
    without context and a path on the trimmed source are constructed,
    and nothing else, whatever the producer does. *)
Theorem X17_getSourceSubjects_constructions (ext : Extern) (w : World) :
  let w' := snd (invoke (getSourceSubjects ext) w) in
  match validateSource_result ext (source (hooks w)) with
  | Normal src =>
      let engine :=
        if truthy (stale w)
        then Some (new_ComunicaEngine (source (hooks w)))
        else queryEngine (gLdfQryCtx w) in
      src = JsString.trim (source (hooks w))
      /\ queryEngine (gLdfQryCtx w') = engine
      /\ calls w'
         = calls w
           ++ (if truthy (stale w)
               then [CallComunicaEngine (source (hooks w))] else [])
           ++ [CallPathFactory None engine;
               CallCreate (new_PathFactory None engine)
                 (namedNode (Some (JsString.trim (source (hooks w)))))]
  | Return => False
  | Throw _ =>
      calls w' = calls w
      /\ queryEngine (gLdfQryCtx w') = queryEngine (gLdfQryCtx w)
      /\ grSubjects w' = []
  end.
Proof.
  cbv zeta.
  destruct (getSourceSubjects_run ext w) as (c & w' & Hrun & Hrest).
  do 7 (destruct Hrest as (_ & Hrest)).
  rewrite Hrun. cbn [snd].
  pose proof (validateSource_result_normal ext (source (hooks w))) as Hn.
  destruct (validateSource_result ext (source (hooks w))) as [src | | ex].
  - cbv zeta in Hrest. rewrite <- (Hn src eq_refl). tauto.
  - exact Hrest.
  - tauto.
Qed.
